(** * Coastline tiling core of the generator (generator/coastlines_generator.cpp)

    A shallow embedding of [CoastlineFeaturesGenerator], [DoAddToTree],
    [DoDifference] and [RegionInCellSplitter], followed by the properties
    of the tiling pipeline.

    Conventions.
    - [size_t] values are integers in [0, 2^64) and every [++], [--] and
    [+=] on them is written with its wrap-around ([to_size_t]).
    - [int32_t]/[uint32_t] conversions of [D2I] are written out
    ([to_int32], [to_uint32]).
    - A [double] is an abstract value: the generator only moves mercator
    coordinates around and hands them to the quantizer.
    - Code the file calls but does not define (geometry library, feature
    builder, cell ids, spatial tree, merger) is either a field of an
    interface class or a small definition marked "Modelled from the
    spec". *)

From Stdlib Require QArith.
From stdpp Require Import base numbers option list relations.

Local Open Scope Z_scope.

(** ** Machine integers *)

Definition to_size_t (z : Z) : Z := z mod 2 ^ 64.
Definition to_uint32 (z : Z) : Z := z mod 2 ^ 32.
Definition to_int32 (z : Z) : Z := (z + 2 ^ 31) mod 2 ^ 32 - 2 ^ 31.

(** ** Lattice geometry (namespace m2) *)

Module m2.

(** [m2::PointI] and [m2::PointU]: a pair of coordinates. *)
Definition PointI : Type := Z * Z.
Definition PointU : Type := Z * Z.

(** Modelled from the spec: [m2::RectI] (geometry/rect2d.hpp is not among
    the sources). An axis-aligned [(minX, minY, maxX, maxY)] over the
    lattice. *)
Record RectI : Type := MkRect { minX : Z; minY : Z; maxX : Z; maxY : Z }.

(** Modelled from the spec: the rectangle of a region without points.
    It contains no point and is enlarged by the first [Add]. *)
Definition MakeEmpty : RectI :=
  MkRect (2 ^ 31 - 1) (2 ^ 31 - 1) (- 2 ^ 31) (- 2 ^ 31).

(** Modelled from the spec: "bounding rectangle, updated on every point
    append". *)
Definition Add (r : RectI) (p : PointI) : RectI :=
  MkRect (Z.min (fst p) (minX r)) (Z.min (snd p) (minY r))
         (Z.max (fst p) (maxX r)) (Z.max (snd p) (maxY r)).

(** Modelled from the spec: [is_rect_inside(other_rect)], "geometric
    containment test on bounding rects only": [other] lies fully inside
    [r]. *)
Definition IsRectInside (r other : RectI) : bool :=
  (minX r <=? minX other) && (maxX other <=? maxX r) &&
  (minY r <=? minY other) && (maxY other <=? maxY r).

(** Modelled from the spec: two rectangles intersect when they share a
    point (used by the spatial tree: "every indexed region whose bounding
    rectangle intersects query_rect"). *)
Definition IsIntersect (r other : RectI) : bool :=
  negb ((maxX r <? minX other) || (maxX other <? minX r) ||
        (maxY r <? minY other) || (maxY other <? minY r)).

(** Modelled from the spec: [m2::RegionI] (geometry/region2d.hpp is not
    among the sources): the "ordered sequence of lattice points" in
    insertion order. The bounding rectangle it carries is determined by
    the points, so it is computed by [GetRect]. *)
Definition RegionI : Type := list PointI.

(** Modelled from the spec: [add_point(p)], "append; update bounding
    rectangle". *)
Definition AddPoint (rgn : RegionI) (p : PointI) : RegionI := rgn ++ [p].

(** Modelled from the spec: [rect()], the bounding rectangle of the points
    appended so far. *)
Definition GetRect (rgn : RegionI) : RectI := foldl Add MakeEmpty rgn.

(** [Region::GetPointsCount] / [Region::Size]: a [size_t]. *)
Definition GetPointsCount (rgn : RegionI) : Z := Z.of_nat (length rgn).

(** The polygon intersection primitive of the geometry library
    (geometry/region2d/binary_operators.hpp is not among the sources): the
    regions that represent [A ∩ B]. *)
Class Intersection : Type :=
  intersect : RegionI -> RegionI -> list RegionI.

(** Modelled from the spec: [intersect_regions(A, B, out_list)] "appends
    zero or more regions representing A ∩ B" to [out_list]. The caller
    passes an element of [out_list] as [A]; it is read before the list
    grows. *)
Definition IntersectRegions `{Intersection} (r1 r2 : RegionI)
    (res : list RegionI) : list RegionI :=
  res ++ intersect r1 r2.

End m2.

Definition RegionT : Type := m2.RegionI.
Definition PointT : Type := m2.PointI.
Definition RectT : Type := m2.RectI.

(** [GetLimitRect]: the region's rectangle as an [m2::RectD]. Its four
    numbers are [int32_t] values, which a [double] holds exactly, so the
    rectangle is kept over the integers. *)
Definition GetLimitRect (rgn : RegionT) : RectT :=
  let r := m2.GetRect rgn in
  m2.MkRect (m2.minX r) (m2.minY r) (m2.maxX r) (m2.maxY r).

(** ** Quantizer (coding/point_coding.hpp, not among the sources)

    The conversion between mercator points and the [kPointCoordBits]-bit
    lattice is a collaborator of the generator. *)
Class Quantizer : Type := {
  double : Type;
  kPointCoordBits : Z;
  PointDToPointU : double * double -> Z -> m2.PointU;
  PointUToPointD : m2.PointU -> Z -> double * double
}.

Definition PointD `{Quantizer} : Type := (double * double)%type.

Definition D2I `{Quantizer} (p : PointD) : PointT :=
  let pu := PointDToPointU p kPointCoordBits in
  (to_int32 (fst pu), to_int32 (snd pu)).

(** ** Cell ids (geometry/cellid.hpp, not among the sources) *)

Module RectId.

(** Modelled from the spec: "a quad-tree cell identifier with fields level
    and bit-packed path from root". *)
Record t : Type := MkCell { m_bits : Z; m_level : Z }.

Definition MAX_CHILDREN : Z := 4.

Definition FromBitsAndLevel (bits : Z) (level : Z) : t := MkCell bits level.

(** Modelled from the spec: "level L contains 4^L cells". *)
Definition TotalCellsOnLevel (level : Z) : Z := 4 ^ level.

Definition Level (c : t) : Z := m_level c.

(** Modelled from the spec: "obtain the four children of a cell": the path
    grows by the two bits of the child, the level by one. *)
Definition Child (c : t) (i : Z) : t := MkCell (m_bits c * 4 + i) (m_level c + 1).

End RectId.

(** ** Spatial tree (geometry/tree4d.hpp, not among the sources) *)

Module m4.

(** Modelled from the spec: "mapping from rectangle -> region, supporting
    Add(region, rect) and ForEachInRect(query_rect, visitor)"; the entries
    are kept in insertion order. *)
Definition Tree : Type := list (RectT * RegionT).

Definition Add (obj : RegionT) (rect : RectT) (tree : Tree) : Tree :=
  tree ++ [(rect, obj)].

(** Modelled from the spec: "the visitor is invoked for every indexed
    region whose bounding rectangle intersects query_rect", in an order
    that is "deterministic given insertion order". *)
Definition ForEachInRect {S : Type} (tree : Tree) (rect : RectT)
    (visitor : RegionT -> S -> S) (s : S) : S :=
  foldl (fun acc e => visitor (snd e) acc) s
        (filter (fun e => m2.IsIntersect rect (fst e) = true) tree).

End m4.

(** ** Feature builder (generator/feature_builder.hpp, not among the sources) *)

Module FeatureBuilder.

(** Modelled from the spec: the container behind the operations the core
    touches: the polygons, the OSM ids of the ways it was built from, the
    coast cell tag, the area flag and the type ids. *)
Record t `{Quantizer} : Type := MkFeature {
  m_polygons : list (list PointD);
  m_osmIds : list Z;
  m_coastCell : option Z;
  m_isArea : bool;
  m_types : list Z
}.

Section Operations.
Context `{Quantizer}.

(** The default-constructed builder of [GetFeatures]. *)
Definition empty : t := MkFeature _ [] [] None false [].

(** Modelled from the spec: [for_each_polygon(visitor)] visits the polygons
    in order. *)
Definition ForEachPolygon {S : Type} (fb : t)
    (toDo : list PointD -> S -> S) (s : S) : S :=
  foldl (fun acc polygon => toDo polygon acc) s (m_polygons fb).

(** Modelled from the spec: [get_points_count()], a [size_t] sum over the
    polygons. *)
Definition GetPointsCount (fb : t) : Z :=
  foldl (fun counter polygon => to_size_t (counter + Z.of_nat (length polygon)))
        0 (m_polygons fb).

Definition GetPolygonsCount (fb : t) : Z := Z.of_nat (length (m_polygons fb)).

(** Modelled from the spec: [add_polygon(points)] stores the points it is
    given as one more polygon. *)
Definition AddPolygon (fb : t) (poly : list PointD) : t :=
  MkFeature _ (m_polygons fb ++ [poly]) (m_osmIds fb) (m_coastCell fb)
            (m_isArea fb) (m_types fb).

Definition SetArea (fb : t) : t :=
  MkFeature _ (m_polygons fb) (m_osmIds fb) (m_coastCell fb) true (m_types fb).

Definition AddType (fb : t) (type : Z) : t :=
  MkFeature _ (m_polygons fb) (m_osmIds fb) (m_coastCell fb) (m_isArea fb)
            (m_types fb ++ [type]).

Definition SetCoastCell (fb : t) (id : Z) : t :=
  MkFeature _ (m_polygons fb) (m_osmIds fb) (Some id) (m_isArea fb) (m_types fb).

End Operations.
End FeatureBuilder.

(** ** Collaborators of the generator

    What the file calls and neither it nor the spec defines: the closedness
    test and the OSM ids of a builder, the serial part of an id, the flush
    of the ring merger ([DoMerge]: the chains it emits for the open builders
    it was fed, in emission order), the mercator bounds and the 64-bit tag
    of a cell, and the classifier's coastline type. *)
Class Collaborators `{Quantizer} : Type := {
  IsGeometryClosed : FeatureBuilder.t -> bool;
  GetFirstOsmId : FeatureBuilder.t -> Z;
  GetLastOsmId : FeatureBuilder.t -> Z;
  GetSerialId : Z -> Z;
  DoMerge : list FeatureBuilder.t -> list FeatureBuilder.t;
  GetCellBounds : RectId.t -> double * double * double * double;
  ToInt64 : RectId.t -> Z -> Z;
  GetCoastlineType : Z
}.

(** ** CoastlineFeaturesGenerator *)

(** [m_merger] is the ring merger, seen through what it was fed;
    [m_tree] the spatial tree. *)
Record CoastlineFeaturesGenerator `{Quantizer} : Type := MkGenerator {
  m_merger : list FeatureBuilder.t;
  m_tree : m4.Tree
}.

(** [LOG(LINFO, ...)] lines of [DoAddToTree] and [Finish]. *)
Inductive LogMessage : Type :=
| NotMergedWay (way points : Z)
| NotMergedWays (firstWay lastWay points : Z)
| TotalNotMergedCoasts (count : Z)
| TotalNotMergedPoints (points : Z).

Section Generator.
Context `{Collaborators}.

Definition CoastlineFeaturesGenerator_ctor : CoastlineFeaturesGenerator :=
  MkGenerator _ [] [].

(** The lambda of [AddRegionToTree]: an empty polygon is left out;
    otherwise the region takes the points from [std::next(cbegin)] to
    [cend] and goes into the tree under its limit rectangle. *)
Definition AddRegionToTree_polygon (polygon : list PointD) (tree : m4.Tree)
    : m4.Tree :=
  match polygon with
  | [] => tree
  | _ :: _ =>
      let rgn := foldl (fun rgn p => m2.AddPoint rgn (D2I p)) [] (tail polygon) in
      let limitRect := GetLimitRect rgn in
      m4.Add rgn limitRect tree
  end.

(** [None] is the failure of [ASSERT(fb.IsGeometryClosed(), ())]. *)
Definition AddRegionToTree (g : CoastlineFeaturesGenerator)
    (fb : FeatureBuilder.t) : option CoastlineFeaturesGenerator :=
  if IsGeometryClosed fb then
    Some (MkGenerator _ (m_merger g)
            (FeatureBuilder.ForEachPolygon fb AddRegionToTree_polygon (m_tree g)))
  else None.

Definition Process (g : CoastlineFeaturesGenerator) (fb : FeatureBuilder.t)
    : option CoastlineFeaturesGenerator :=
  if IsGeometryClosed fb then AddRegionToTree g fb
  else Some (MkGenerator _ (m_merger g ++ [fb]) (m_tree g)).

End Generator.

(** ** DoAddToTree: the emitter handed to the merger by [Finish] *)

Module DoAddToTree.
Section WithCollaborators.
Context `{Collaborators}.

Record t : Type := Mk {
  m_rMain : CoastlineFeaturesGenerator;
  m_notMergedCoastsCount : Z;
  m_totalNotMergedCoastsPoints : Z
}.

Definition ctor (rMain : CoastlineFeaturesGenerator) : t := Mk rMain 0 0.

(** [operator()(FeatureBuilder const &)], with the log it writes to. *)
Definition call (s : t * list LogMessage) (fb : FeatureBuilder.t)
    : option (t * list LogMessage) :=
  let '(d, log) := s in
  if IsGeometryClosed fb then
    rMain ← AddRegionToTree (m_rMain d) fb;
    Some (Mk rMain (m_notMergedCoastsCount d) (m_totalNotMergedCoastsPoints d), log)
  else
    let firstWay := GetFirstOsmId fb in
    let lastWay := GetLastOsmId fb in
    let line :=
      if firstWay =? lastWay
      then NotMergedWay (GetSerialId firstWay) (FeatureBuilder.GetPointsCount fb)
      else NotMergedWays (GetSerialId firstWay) (GetSerialId lastWay)
                         (FeatureBuilder.GetPointsCount fb) in
    Some (Mk (m_rMain d)
             (to_size_t (m_notMergedCoastsCount d + 1))
             (to_size_t (m_totalNotMergedCoastsPoints d
                         + FeatureBuilder.GetPointsCount fb)),
          log ++ [line]).

Definition HasNotMergedCoasts (d : t) : bool :=
  negb (m_notMergedCoastsCount d =? 0).

Definition GetNotMergedCoastsCount (d : t) : Z := m_notMergedCoastsCount d.

Definition GetNotMergedCoastsPoints (d : t) : Z := m_totalNotMergedCoastsPoints d.

End WithCollaborators.
End DoAddToTree.

Section Finish.
Context `{Collaborators}.

(** [m_merger.DoMerge(doAdd)]: the emitter receives every chain of the
    flush in turn. *)
Definition DoMerge_emit (g : CoastlineFeaturesGenerator)
    (s : DoAddToTree.t * list LogMessage)
    : option (DoAddToTree.t * list LogMessage) :=
  foldl (fun acc fb => acc ≫= fun s => DoAddToTree.call s fb) (Some s)
        (DoMerge (m_merger g)).

(** [Finish]: the returned flag, the generator afterwards and the log. *)
Definition Finish (g : CoastlineFeaturesGenerator)
    : option (bool * CoastlineFeaturesGenerator * list LogMessage) :=
  '(doAdd, log) ← DoMerge_emit g (DoAddToTree.ctor g, []);
  if DoAddToTree.HasNotMergedCoasts doAdd then
    Some (false, DoAddToTree.m_rMain doAdd,
          log ++ [TotalNotMergedCoasts (DoAddToTree.GetNotMergedCoastsCount doAdd);
                  TotalNotMergedPoints (DoAddToTree.GetNotMergedCoastsPoints doAdd)])
  else Some (true, DoAddToTree.m_rMain doAdd, log).

End Finish.

(** ** DoDifference: the per-cell accumulator *)

Module DoDifference.
Section WithQuantizer.
Context `{Quantizer} `{m2.Intersection}.

Record t : Type := Mk {
  m_src : RectT;
  m_res : list RegionT;
  m_points : list PointD
}.

Definition ctor (rgn : RegionT) : t := Mk (m2.GetRect rgn) ([] ++ [rgn]) [].

(** [operator()(RegionT const &)]. [None] is [front()] of an empty
    vector. *)
Definition call (d : t) (r : RegionT) : option t :=
  if m2.IsRectInside (m_src d) (m2.GetRect r) then
    Some (Mk (m_src d) (m_res d ++ [r]) (m_points d))
  else
    front ← head (m_res d);
    Some (Mk (m_src d) (m2.IntersectRegions front r (m_res d)) (m_points d)).

(** [operator()(PointT const &)]. *)
Definition call_point (d : t) (p : PointT) : t :=
  Mk (m_src d) (m_res d)
     (m_points d ++ [PointUToPointD (to_uint32 (fst p), to_uint32 (snd p))
                                    kPointCoordBits]).

Definition GetPointsCount (d : t) : Z :=
  foldl (fun count r => to_size_t (count + m2.GetPointsCount r)) 0 (m_res d).

(** One round of the loop of [AssignGeometry] for the region [r]. *)
Definition AssignGeometry_region (s : t * FeatureBuilder.t) (r : RegionT)
    : t * FeatureBuilder.t :=
  let '(d, fb) := s in
  let cleared := Mk (m_src d) (m_res d) [] in
  let filled := foldl call_point cleared r in
  (filled, FeatureBuilder.AddPolygon fb (m_points filled)).

Definition AssignGeometry (d : t) (fb : FeatureBuilder.t)
    : t * FeatureBuilder.t :=
  foldl AssignGeometry_region (d, fb) (m_res d).

End WithQuantizer.
End DoDifference.

(** ** RegionInCellSplitter *)

Module RegionInCellSplitter.

Definition TCell : Type := RectId.t.
Definition TIndex : Type := m4.Tree.

Definition kStartLevel : Z := 4.
Definition kHighLevel : Z := 10.
Definition kMaxPoints : Z := 20000.

(** What a thread running [operator()()] is doing: blocked on or about to
    enter the wait on [listCondVar], between [lock.unlock()] and
    [lock.lock()] with [currentCell], or out of the loop. *)
Inductive Worker : Type :=
| Waiting
| Working (currentCell : TCell)
| Exited.

Section Splitter.
Context `{Collaborators} `{m2.Intersection}.
Context {S : Type}.

(** [struct Context]. [mutexTasks] and [listCondVar] are what makes the
    steps below atomic; the effect of [processResultFunc] on the program is
    the state [output] it transforms. *)
Record Context : Type := MkContext {
  listTasks : list TCell;
  inWork : Z;
  output : S
}.

Variable processResultFunc : TCell -> DoDifference.t -> S -> S.
Variable m_index : TIndex.

(** The rect region [rectR] of [ProcessCell]. *)
Definition rectR (cell : TCell) : RegionT :=
  let '(minX, minY, maxX, maxY) := GetCellBounds cell in
  let arr := [D2I (minX, minY); D2I (minX, maxY);
              D2I (maxX, maxY); D2I (maxX, minY)] in
  foldl m2.AddPoint [] arr.

(** [std::bind<void>(std::ref(doDiff), _1)]: the visitor given to the
    tree, on the accumulator [doDiff]. *)
Definition bind_doDiff (r : RegionT) (doDiff : option DoDifference.t)
    : option DoDifference.t :=
  doDiff ≫= fun d => DoDifference.call d r.

(** [doDiff] after [m_index.ForEachInRect(GetLimitRect(rectR), doDiff)]. *)
Definition difference (cell : TCell) : option DoDifference.t :=
  let doDiff := DoDifference.ctor (rectR cell) in
  m4.ForEachInRect m_index (GetLimitRect (rectR cell)) bind_doDiff (Some doDiff).

Definition ProcessCell (cell : TCell) (out : S) : option (bool * S) :=
  doDiff ← difference cell;
  if (RectId.Level cell <? kHighLevel)
     && (kMaxPoints <=? DoDifference.GetPointsCount doDiff)
  then Some (false, out)
  else Some (true, processResultFunc cell doDiff out).

(** The children pushed back for a cell that is not ready. *)
Definition children (currentCell : TCell) : list TCell :=
  map (RectId.Child currentCell) (seqZ 0 RectId.MAX_CHILDREN).

(** The shared context and the threads: the state of [Process] between
    the start of the threads and their [join]. *)
Record State : Type := MkState {
  m_ctx : Context;
  threads : list Worker
}.

(** One atomic step of thread [i] of [operator()()].
    - [Waiting]: the wait returns when the list is non-empty or
      [inWork == 0]; on an empty list the thread breaks out of the loop,
      otherwise it pops the front cell and counts itself in work. When the
      predicate of the wait is false the thread cannot move ([None]).
    - [Working c]: [ProcessCell], then under the lock the children are
      pushed if the cell was not done and [inWork] is decremented. *)
Definition thread_step (i : nat) (st : State) : option State :=
  let ctx := m_ctx st in
  match threads st !! i with
  | Some Waiting =>
      match listTasks ctx with
      | currentCell :: rest =>
          Some (MkState (MkContext rest (to_size_t (inWork ctx + 1)) (output ctx))
                        (<[i := Working currentCell]> (threads st)))
      | [] =>
          if inWork ctx =? 0
          then Some (MkState ctx (<[i := Exited]> (threads st)))
          else None
      end
  | Some (Working currentCell) =>
      '(done_, out) ← ProcessCell currentCell (output ctx);
      let tasks := if (done_ : bool) then listTasks ctx
                   else listTasks ctx ++ children currentCell in
      Some (MkState (MkContext tasks (to_size_t (inWork ctx - 1)) out)
                    (<[i := Waiting]> (threads st)))
  | Some Exited | None => None
  end.

(** The state [Process] starts its threads in: every cell of level
    [baseScale] is queued. *)
Definition Process_start (numThreads : nat) (baseScale : Z) (out : S) : State :=
  MkState
    (MkContext (map (fun i => RectId.FromBitsAndLevel i baseScale)
                    (seqZ 0 (RectId.TotalCellsOnLevel baseScale)))
               0 out)
    (replicate numThreads Waiting).

(** The threads run in some interleaving: [schedule] names the thread that
    moves at each step. *)
Definition run (schedule : list nat) (st : State) : option State :=
  foldl (fun acc i => acc ≫= thread_step i) (Some st) schedule.

Definition step (st st' : State) : Prop := exists i, thread_step i st = Some st'.

Definition joined (st : State) : bool :=
  forallb (fun w => match w with Exited => true | _ => false end) (threads st).

(** [Process]: the schedule must take every thread out of its loop;
    the result is [ctx.listTasks.empty()] and the final output. *)
Definition Process (schedule : list nat) (numThreads : nat) (baseScale : Z)
    (out : S) : option (bool * S) :=
  st ← run schedule (Process_start numThreads baseScale out);
  if joined st
  then Some (match listTasks (m_ctx st) with [] => true | _ => false end,
             output (m_ctx st))
  else None.

End Splitter.
End RegionInCellSplitter.

(** ** CoastlineFeaturesGenerator::GetFeatures *)

Section GetFeatures.
Context `{Collaborators} `{m2.Intersection}.

(** The feature built by the lambda of [GetFeatures], before its checks. *)
Definition coast_feature (cell : RegionInCellSplitter.TCell)
    (cellData : DoDifference.t) : FeatureBuilder.t :=
  let fb := FeatureBuilder.empty in
  let fb := FeatureBuilder.SetCoastCell fb
              (ToInt64 cell (RegionInCellSplitter.kHighLevel + 1)) in
  let fb := snd (DoDifference.AssignGeometry cellData fb) in
  let fb := FeatureBuilder.SetArea fb in
  FeatureBuilder.AddType fb GetCoastlineType.

(** The lambda of [GetFeatures]. The vector [features] is [None] once a
    [CHECK] has failed, and stays so. *)
Definition GetFeatures_lambda (cell : RegionInCellSplitter.TCell)
    (cellData : DoDifference.t) (features : option (list FeatureBuilder.t))
    : option (list FeatureBuilder.t) :=
  fs ← features;
  let fb := coast_feature cell cellData in
  if (0 <? FeatureBuilder.GetPolygonsCount fb)
     && (3 <=? FeatureBuilder.GetPointsCount fb)
  then Some (fs ++ [fb])
  else None.

(** [GetFeatures] on [maxThreads] hardware threads that interleave as
    [schedule] says. [None]: a failed [CHECK], or a schedule that does not
    bring every thread to its exit. *)
Definition GetFeatures (g : CoastlineFeaturesGenerator) (maxThreads : nat)
    (schedule : list nat) (features : list FeatureBuilder.t)
    : option (list FeatureBuilder.t) :=
  if (0 <? maxThreads)%nat then
    r ← RegionInCellSplitter.Process GetFeatures_lambda (m_tree g) schedule
          maxThreads RegionInCellSplitter.kStartLevel (Some features);
    snd r
  else None.

End GetFeatures.

(** ** Termination measure of the splitter *)

Module Measure.
Import RegionInCellSplitter.

(** Number of cells in the quad tree below a cell that is [d] levels above
    [kHighLevel], the cell included. *)
Fixpoint subtree_size (d : nat) : nat :=
  match d with
  | O => 1
  | Datatypes.S d' => 1 + 4 * subtree_size d'
  end.

Definition cell_weight (c : TCell) : nat :=
  subtree_size (Z.to_nat (kHighLevel - RectId.Level c)).

Definition tasks_weight (l : list TCell) : nat :=
  foldr (fun c n => 3 * cell_weight c + n)%nat 0%nat l.

Definition worker_weight (w : Worker) : nat :=
  match w with
  | Waiting => 1
  | Working c => 3 * cell_weight c - 1
  | Exited => 0
  end.

Definition threads_weight (ws : list Worker) : nat :=
  foldr (fun w n => worker_weight w + n)%nat 0%nat ws.

Definition measure {S : Type} (st : State (S := S)) : nat :=
  tasks_weight (listTasks (m_ctx st)) + threads_weight (threads st).

(** Number of threads that are processing a cell. *)
Definition working (ws : list Worker) : nat :=
  foldr (fun w n => match w with Working _ => Datatypes.S n | _ => n end) 0%nat ws.

(** The cells that threads are processing. *)
Definition working_cells (ws : list Worker) : list TCell :=
  flat_map (fun w => match w with Working c => [c] | _ => [] end) ws.

(** What the lock protects: [inWork] counts the threads that are
    processing a cell, and once a thread has left its loop the list is
    empty and nobody is processing. *)
Definition consistent {S : Type} (st : State (S := S)) : Prop :=
  inWork (m_ctx st) = Z.of_nat (working (threads st)) /\
  ((exists i, threads st !! i = Some Exited) ->
   listTasks (m_ctx st) = [] /\ working (threads st) = 0%nat).

(** No thread can move. *)
Definition terminal `{Collaborators} `{m2.Intersection} {S : Type}
    (processResultFunc : TCell -> DoDifference.t -> S -> S) (index : TIndex)
    (st : State (S := S)) : Prop :=
  forall i, thread_step processResultFunc index i st = None.

End Measure.

(** ** A concrete world for closed examples

    Mercator coordinates are taken in lattice units, so the quantizer only
    clamps; the geometry primitive intersects bounding boxes, which is the
    exact intersection on axis-aligned rectangles; a cell of level [l] is a
    square of side [2^(30-l)] placed by the bits of its path. *)

Module Lattice.

Definition clamp (bits x : Z) : Z := Z.max 0 (Z.min x (2 ^ bits - 1)).

Definition quantizer : Quantizer := {|
  double := Z;
  kPointCoordBits := 30;
  PointDToPointU := fun p bits => (clamp bits (fst p), clamp bits (snd p));
  PointUToPointD := fun p bits => p
|}.

Definition box_intersect : m2.Intersection := fun a b =>
  let ra := m2.GetRect a in
  let rb := m2.GetRect b in
  if m2.IsIntersect ra rb then
    let x0 := Z.max (m2.minX ra) (m2.minX rb) in
    let y0 := Z.max (m2.minY ra) (m2.minY rb) in
    let x1 := Z.min (m2.maxX ra) (m2.maxX rb) in
    let y1 := Z.min (m2.maxY ra) (m2.maxY rb) in
    [[(x0, y0); (x0, y1); (x1, y1); (x1, y0)]]
  else [].

(** Column and row of a cell among the cells of its level. *)
Fixpoint cell_xy (level : nat) (bits : Z) : Z * Z :=
  match level with
  | O => (0, 0)
  | Datatypes.S l =>
      let '(x, y) := cell_xy l (bits / 4) in
      (2 * x + bits mod 2, 2 * y + (bits / 2) mod 2)
  end.

Definition cell_bounds (c : RectId.t) : Z * Z * Z * Z :=
  let '(x, y) := cell_xy (Z.to_nat (RectId.m_level c)) (RectId.m_bits c) in
  let side := 2 ^ (30 - RectId.m_level c) in
  (x * side, y * side, (x + 1) * side, (y + 1) * side).

(** A builder is closed when its outer polygon has more than two points and
    ends where it starts. *)
Definition closed (fb : FeatureBuilder.t (H := quantizer)) : bool :=
  match FeatureBuilder.m_polygons fb with
  | outer :: _ =>
      (2 <? Z.of_nat (length outer)) && bool_decide (head outer = last outer)
  | [] => false
  end.

(** The collaborators of the example world, for a given flush [merge] of the
    merger. *)
Definition collaborators
    (merge : list (FeatureBuilder.t (H := quantizer))
             -> list (FeatureBuilder.t (H := quantizer)))
    : Collaborators (H := quantizer) := {|
  IsGeometryClosed := closed;
  GetFirstOsmId := fun fb => default 0 (head (FeatureBuilder.m_osmIds fb));
  GetLastOsmId := fun fb => default 0 (last (FeatureBuilder.m_osmIds fb));
  GetSerialId := fun id => id;
  DoMerge := merge;
  GetCellBounds := cell_bounds;
  ToInt64 := fun c depth => RectId.m_level c * 2 ^ 40 + RectId.m_bits c;
  GetCoastlineType := 1
|}.

(** A merger that splices nothing: every open builder it was fed comes
    back as it is. *)
Definition no_merge : Collaborators (H := quantizer) := collaborators (fun l => l).

(** A builder with the given polygons and way ids. *)
Definition builder (polygons : list (list (Z * Z))) (ids : list Z)
    : FeatureBuilder.t (H := quantizer) :=
  FeatureBuilder.MkFeature quantizer polygons ids None false [].

(** The first cell of the start level, a square island inside it, a land
    mass that crosses its right edge, and the tree that holds both. *)
Definition cell0 : RectId.t := RectId.FromBitsAndLevel 0 4.

Definition island : RegionT := [(10, 10); (20, 10); (20, 20); (10, 20)].

Definition shore : RegionT :=
  [(2 ^ 26 - 100, 30); (2 ^ 26 + 100, 30); (2 ^ 26 + 100, 60); (2 ^ 26 - 100, 60)].

Definition land : m4.Tree :=
  m4.Add shore (GetLimitRect shore) (m4.Add island (GetLimitRect island) []).

(** A closed coastline ring, a lone open way, and a builder whose second
    polygon is empty. *)
Definition ring : FeatureBuilder.t (H := quantizer) :=
  builder [[(0, 0); (10, 0); (10, 10); (0, 0)]] [7].

Definition open_way : FeatureBuilder.t (H := quantizer) :=
  builder [[(0, 0); (5, 5)]] [42].

Definition holey : FeatureBuilder.t (H := quantizer) :=
  builder [[(0, 0); (10, 0); (10, 10); (0, 0)]; [];
           [(2, 2); (4, 2); (4, 4); (2, 2)]] [8].


(** The generator whose tree holds [land]. *)
Definition land_generator : CoastlineFeaturesGenerator (H := quantizer) :=
  MkGenerator quantizer [] land.

(** One thread alone: it pops and processes the 256 cells in turn, then
    leaves. *)
Definition one_thread_schedule : list nat := replicate 513 0%nat.

End Lattice.

(** ** Reference views of the pipeline

    The builders of a whole run given to [Process] one after the other,
    and the subdivision that the threads of the splitter carry out, written
    as a recursion on one cell. *)

Section Feed.
Context `{Collaborators}.

(** [Process] called on each builder in turn. *)
Definition Process_all (g : CoastlineFeaturesGenerator)
    (fbs : list FeatureBuilder.t) : option CoastlineFeaturesGenerator :=
  foldl (fun acc fb => acc ≫= fun g => Process g fb) (Some g) fbs.

End Feed.

Module Subdivision.
Import RegionInCellSplitter.

Section WithIndex.
Context `{Collaborators} `{m2.Intersection}.
Variable index : TIndex.

(** The test of [ProcessCell] that sends a cell back to the list. *)
Definition not_ready (cell : TCell) : bool :=
  match difference index cell with
  | Some doDiff =>
      (RectId.Level cell <? kHighLevel)
      && (kMaxPoints <=? DoDifference.GetPointsCount doDiff)
  | None => false
  end.

(** The cells that reach the callback when [cell] is processed and, as
    long as it is not ready, its four children in its place; [depth] bounds
    the number of levels still below the cell. *)
Fixpoint accepted_below (depth : nat) (cell : TCell) : list TCell :=
  if not_ready cell then
    match depth with
    | O => []
    | Datatypes.S d => flat_map (accepted_below d) (children cell)
    end
  else [cell].

Definition accepted (cell : TCell) : list TCell :=
  accepted_below (Z.to_nat (kHighLevel - RectId.Level cell)) cell.

(** The feature the lambda of [GetFeatures] builds for a cell. *)
Definition cell_feature (cell : TCell) : FeatureBuilder.t :=
  match difference index cell with
  | Some doDiff => coast_feature cell doDiff
  | None => FeatureBuilder.empty
  end.

End WithIndex.

(** The cells of level [kHighLevel] below a cell, as an interval of their
    paths: from [span_lo] to [span_hi], the latter excluded. *)
Definition span_lo (c : TCell) : Z :=
  RectId.m_bits c * 4 ^ (kHighLevel - RectId.m_level c).

Definition span_hi (c : TCell) : Z :=
  (RectId.m_bits c + 1) * 4 ^ (kHighLevel - RectId.m_level c).

Definition covers (k : Z) (c : TCell) : bool :=
  (span_lo c <=? k) && (k <? span_hi c).

(** The spans of the cells of [l] follow one another from [a] to [b]. *)
Fixpoint tiles (l : list TCell) (a b : Z) : Prop :=
  match l with
  | [] => a = b
  | c :: l' => span_lo c = a /\ a < span_hi c /\ tiles l' (span_hi c) b
  end.

End Subdivision.

(** ** Bicycle model tables (routing_common/bicycle_model.cpp)

    The highway types are the enumerators the file names; a speed is the
    pair of [double] literals of the source, kept as the rationals they
    denote (no arithmetic is done on them here). *)

Module bicycle_model.

Inductive HighwayType : Type :=
| HighwayTrunk | HighwayTrunkLink | HighwayPrimary | HighwayPrimaryLink
| HighwaySecondary | HighwaySecondaryLink | HighwayTertiary | HighwayTertiaryLink
| HighwayService | HighwayUnclassified | HighwayRoad | HighwayTrack | HighwayPath
| HighwayBridleway | HighwayCycleway | HighwayResidential | HighwayLivingStreet
| HighwaySteps | HighwayPedestrian | HighwayFootway | ManMadePier | RouteFerry.

#[export] Instance HighwayType_eq_dec : EqDecision HighwayType.
Proof. solve_decision. Defined.

(** [SpeedKMpH]: weight and eta. *)
Record SpeedKMpH : Type := MkSpeed {
  m_weight : QArith_base.Q;
  m_eta : QArith_base.Q
}.

(** [InOutCitySpeedKMpH], built from one speed or from an in-city and an
    out-city speed. *)
Inductive InOutCitySpeedKMpH : Type :=
| InOutSame (speed : SpeedKMpH)
| InOut (inCity outCity : SpeedKMpH).

(** A [double] literal with no fractional part. *)
Definition whole (z : Z) : QArith_base.Q := QArith_base.Qmake z 1.

Definition kSpeedOffroadKMpH : SpeedKMpH :=
  MkSpeed (QArith_base.Qmake 3 2) (whole 3).
Definition kSpeedDismountKMpH : SpeedKMpH := MkSpeed (whole 2) (whole 2).
Definition kSpeedOnFootwayKMpH : SpeedKMpH := MkSpeed (whole 5) (whole 7).

(** The entries of [kDefaultSpeeds], in the order of the source. *)
Definition kDefaultSpeeds : list (HighwayType * InOutCitySpeedKMpH) :=
  [ (HighwayTrunk, InOutSame (MkSpeed (whole 3) (whole 18)));
    (HighwayTrunkLink, InOutSame (MkSpeed (whole 3) (whole 18)));
    (HighwayPrimary, InOut (MkSpeed (whole 10) (whole 18)) (MkSpeed (whole 14) (whole 18)));
    (HighwayPrimaryLink, InOut (MkSpeed (whole 10) (whole 18)) (MkSpeed (whole 14) (whole 18)));
    (HighwaySecondary, InOut (MkSpeed (whole 15) (whole 18)) (MkSpeed (whole 20) (whole 18)));
    (HighwaySecondaryLink, InOut (MkSpeed (whole 15) (whole 18)) (MkSpeed (whole 20) (whole 18)));
    (HighwayTertiary, InOut (MkSpeed (whole 15) (whole 18)) (MkSpeed (whole 20) (whole 18)));
    (HighwayTertiaryLink, InOut (MkSpeed (whole 15) (whole 18)) (MkSpeed (whole 20) (whole 18)));
    (HighwayService, InOutSame (MkSpeed (whole 12) (whole 18)));
    (HighwayUnclassified, InOutSame (MkSpeed (whole 12) (whole 18)));
    (HighwayRoad, InOutSame (MkSpeed (whole 10) (whole 12)));
    (HighwayTrack, InOutSame (MkSpeed (whole 8) (whole 12)));
    (HighwayPath, InOutSame (MkSpeed (whole 6) (whole 12)));
    (HighwayBridleway, InOutSame (MkSpeed (whole 4) (whole 12)));
    (HighwayCycleway, InOutSame (MkSpeed (whole 30) (whole 20)));
    (HighwayResidential, InOutSame (MkSpeed (whole 8) (whole 10)));
    (HighwayLivingStreet, InOutSame (MkSpeed (whole 7) (whole 8)));
    (HighwaySteps, InOutSame (MkSpeed (whole 1) (whole 1)));
    (HighwayPedestrian, InOutSame kSpeedDismountKMpH);
    (HighwayFootway, InOutSame kSpeedDismountKMpH);
    (ManMadePier, InOutSame kSpeedOnFootwayKMpH);
    (RouteFerry, InOutSame (MkSpeed (whole 3) (whole 20))) ].

(** An element of a [VehicleModel::LimitsInitList]. *)
Record FeatureTypeLimits : Type := MkLimits {
  m_type : HighwayType;
  m_isPassThroughAllowed : bool
}.

Definition LimitsInitList : Type := list FeatureTypeLimits.

Definition kDefaultOptions : LimitsInitList :=
  [ MkLimits HighwayTrunk true; MkLimits HighwayTrunkLink true;
    MkLimits HighwayPrimary true; MkLimits HighwayPrimaryLink true;
    MkLimits HighwaySecondary true; MkLimits HighwaySecondaryLink true;
    MkLimits HighwayTertiary true; MkLimits HighwayTertiaryLink true;
    MkLimits HighwayService true; MkLimits HighwayUnclassified true;
    MkLimits HighwayRoad true; MkLimits HighwayTrack true;
    MkLimits HighwayPath true;
    MkLimits HighwayCycleway true; MkLimits HighwayResidential true;
    MkLimits HighwayLivingStreet true; MkLimits HighwaySteps true;
    MkLimits HighwayPedestrian true; MkLimits HighwayFootway true;
    MkLimits ManMadePier true; MkLimits RouteFerry true ].

(** [NoTrunk]: the loop over [kDefaultOptions] with its [push_back]. *)
Definition NoTrunk : LimitsInitList :=
  foldl (fun res e =>
           if negb (bool_decide (m_type e = HighwayTrunk))
              && negb (bool_decide (m_type e = HighwayTrunkLink))
           then res ++ [e] else res)
        [] kDefaultOptions.

(** The capacity [NoTrunk] reserves: [kDefaultOptions.size() - 2], a
    [size_t]. *)
Definition NoTrunk_reserve : Z := to_size_t (Z.of_nat (length kDefaultOptions) - 2).

Definition AllAllowed : LimitsInitList :=
  kDefaultOptions ++ [MkLimits HighwayBridleway true].

(** [UkraineOptions]: the loop that clears [m_isPassThroughAllowed] in
    place. *)
Definition UkraineOptions : LimitsInitList :=
  map (fun e =>
         if bool_decide (m_type e = HighwayLivingStreet)
            || bool_decide (m_type e = HighwayService)
         then MkLimits (m_type e) false else e)
      NoTrunk.

(** The two sides of the [ASSERT_EQUAL] of the [BicycleModel]
    constructor. *)
Definition ctor_assert_lhs : Z := Z.of_nat (length kDefaultOptions).
Definition ctor_assert_rhs : Z := to_size_t (Z.of_nat (length kDefaultSpeeds) - 1).

End bicycle_model.

(** ** More of the example world *)

Module LatticeRuns.

(** Two threads: the first does all the work and leaves, then the second
    leaves. *)
Definition two_thread_schedule : list nat := replicate 513 0%nat ++ [1%nat].

(** A short interleaving of two threads: both pop a cell, the second
    finishes its cell first. *)
Definition short_schedule : list nat := [0; 1; 1]%nat.

(** The builders of a small planet, in arrival order. *)
Definition stream : list (FeatureBuilder.t (H := Lattice.quantizer)) :=
  [Lattice.ring; Lattice.open_way; Lattice.holey].

(** A point of the mercator plane, in lattice units. *)
Definition somewhere : PointD (H := Lattice.quantizer) := (123456, 654321).

End LatticeRuns.

(* ================================================================== *)
(** * Properties *)

(** ** Machine integers *)

Lemma to_size_t_range z : 0 <= to_size_t z < 2 ^ 64.
Proof. unfold to_size_t. apply Z.mod_pos_bound. lia. Qed.

Lemma to_size_t_small z : 0 <= z < 2 ^ 64 -> to_size_t z = z.
Proof. intros Hz. unfold to_size_t. by apply Z.mod_small. Qed.

Lemma to_size_t_add_l a b : to_size_t (to_size_t a + b) = to_size_t (a + b).
Proof. unfold to_size_t. by rewrite Zplus_mod_idemp_l. Qed.

Lemma to_size_t_idemp a : to_size_t (to_size_t a) = to_size_t a.
Proof. unfold to_size_t. by rewrite Zmod_mod. Qed.

(** A [size_t] accumulation over a list is the exact sum reduced once. *)
Lemma size_t_sum {A : Type} (f : A -> Z) (l : list A) (acc : Z) :
  foldl (fun count a => to_size_t (count + f a)) (to_size_t acc) l
  = to_size_t (acc + foldr (fun a n => f a + n) 0 l).
Proof.
  revert acc. induction l as [|a l IH]; intros acc; simpl.
  - by rewrite Z.add_0_r.
  - rewrite to_size_t_add_l, IH. f_equal. lia.
Qed.

Lemma foldl_map_snd {A B C : Type} (f : B -> C -> C) (l : list (A * B)) (acc : C) :
  foldl (fun acc e => f (snd e) acc) acc l
  = foldl (fun acc b => f b acc) acc (map snd l).
Proof. revert acc. induction l as [|e l IH]; intros acc; simpl; [done|apply IH]. Qed.

Lemma GetLimitRect_GetRect rgn : GetLimitRect rgn = m2.GetRect rgn.
Proof. unfold GetLimitRect. by destruct (m2.GetRect rgn). Qed.

(** ** The accumulator of a cell *)

Section Difference.
Context `{Collaborators} `{m2.Intersection}.
Import RegionInCellSplitter.

(** Folding the visitor over regions from a state whose result list starts
    with [front]: the list only grows at its end, by the region itself when
    its rectangle is inside the source rectangle and by its intersection
    with [front] otherwise. *)
Lemma visit_regions (rs : list RegionT) (d : DoDifference.t) (front : RegionT) :
  head (DoDifference.m_res d) = Some front ->
  foldl (fun acc r => bind_doDiff r acc) (Some d) rs
  = Some (DoDifference.Mk (DoDifference.m_src d)
            (DoDifference.m_res d ++
             flat_map (fun r =>
               if m2.IsRectInside (DoDifference.m_src d) (m2.GetRect r)
               then [r] else m2.intersect front r) rs)
            (DoDifference.m_points d)).
Proof.
  revert d. induction rs as [|r rs IH]; intros d Hfront; simpl.
  - rewrite app_nil_r. by destruct d.
  - unfold DoDifference.call at 1.
    destruct (m2.IsRectInside _ _) eqn:Hin; simpl.
    + rewrite IH; simpl.
      * by rewrite <- app_assoc.
      * destruct (DoDifference.m_res d); by simplify_eq/=.
    + rewrite Hfront; simpl. unfold m2.IntersectRegions.
      rewrite IH; simpl.
      * by rewrite <- app_assoc.
      * destruct (DoDifference.m_res d); by simplify_eq/=.
Qed.

(** The regions the tree hands to the visitor for a cell. *)
Lemma difference_unfold (index : TIndex) (cell : TCell) :
  difference index cell
  = foldl (fun acc r => bind_doDiff r acc)
          (Some (DoDifference.ctor (rectR cell)))
          (map snd (filter (fun e => m2.IsIntersect (GetLimitRect (rectR cell))
                                                      (fst e) = true) index)).
Proof.
  unfold difference, m4.ForEachInRect.
  apply foldl_map_snd.
Qed.

(** [ProcessCell] never takes [front()] of an empty vector: the accumulator
    of a cell is the envelope followed by what each visited region
    contributes. *)
Lemma difference_spec (index : TIndex) (cell : TCell) :
  difference index cell
  = Some (DoDifference.Mk (m2.GetRect (rectR cell))
            (rectR cell ::
             flat_map (fun r =>
               if m2.IsRectInside (m2.GetRect (rectR cell)) (m2.GetRect r)
               then [r] else m2.intersect (rectR cell) r)
               (map snd (filter (fun e => m2.IsIntersect
                                   (GetLimitRect (rectR cell)) (fst e) = true)
                                index)))
            []).
Proof.
  rewrite difference_unfold.
  by rewrite (visit_regions _ _ (rectR cell)).
Qed.

End Difference.

Section DifferenceClaims.
Context `{Collaborators} `{m2.Intersection}.
Import RegionInCellSplitter.

(** C7. For every cell and every visited region [r] whose bounding
    rectangle is fully inside the bounding rectangle of the cell envelope:
    whatever regions [rs] were visited before it, the visit of [r] appends
    [r] itself, unchanged, at the end of the result list and changes
    nothing else; the step does not depend on the intersection primitive,
    which is not called. *)
Theorem C7_inner_region_appended_unchanged
    (cell : TCell) (rs : list RegionT) (r : RegionT) :
  m2.IsRectInside (m2.GetRect (rectR cell)) (m2.GetRect r) = true ->
  exists d : DoDifference.t,
    foldl (fun acc r => bind_doDiff r acc)
          (Some (DoDifference.ctor (rectR cell))) rs = Some d /\
    foldl (fun acc r => bind_doDiff r acc)
          (Some (DoDifference.ctor (rectR cell))) (rs ++ [r])
    = Some (DoDifference.Mk (DoDifference.m_src d)
              (DoDifference.m_res d ++ [r]) (DoDifference.m_points d)) /\
    forall other : m2.Intersection,
      @DoDifference.call _ other d r
      = Some (DoDifference.Mk (DoDifference.m_src d)
                (DoDifference.m_res d ++ [r]) (DoDifference.m_points d)).
Proof.
  intros Hin.
  pose proof (visit_regions rs (DoDifference.ctor (rectR cell)) (rectR cell)
                eq_refl) as Hrs.
  eexists. split; [exact Hrs|].
  split.
  - rewrite foldl_app, Hrs. simpl.
    unfold DoDifference.call. simpl. by rewrite Hin.
  - intros other. unfold DoDifference.call. simpl. by rewrite Hin.
Qed.

(** C1 (amended). For every cell and every visited region [r] whose
    bounding rectangle is not fully inside the bounding rectangle of the
    cell envelope: the visit appends the output of
    [intersect_regions(result[0], r)] at the end of the result list, where
    [result[0]] is the cell envelope; the first element is not replaced, so
    during and after the fold over any index the first slot still holds the
    original four-corner envelope. *)
Theorem C1_intersection_is_appended_envelope_stays
    (cell : TCell) (rs : list RegionT) (r : RegionT) :
  m2.IsRectInside (m2.GetRect (rectR cell)) (m2.GetRect r) = false ->
  (exists d : DoDifference.t,
     foldl (fun acc r => bind_doDiff r acc)
           (Some (DoDifference.ctor (rectR cell))) rs = Some d /\
     head (DoDifference.m_res d) = Some (rectR cell) /\
     foldl (fun acc r => bind_doDiff r acc)
           (Some (DoDifference.ctor (rectR cell))) (rs ++ [r])
     = Some (DoDifference.Mk (DoDifference.m_src d)
               (DoDifference.m_res d ++ m2.intersect (rectR cell) r)
               (DoDifference.m_points d))) /\
  (forall index : TIndex, exists doDiff : DoDifference.t,
     difference index cell = Some doDiff /\
     head (DoDifference.m_res doDiff) = Some (rectR cell)).
Proof.
  intros Hin. split.
  - pose proof (visit_regions rs (DoDifference.ctor (rectR cell)) (rectR cell)
                  eq_refl) as Hrs.
    eexists. split; [exact Hrs|]. split; [done|].
    rewrite foldl_app, Hrs. simpl.
    unfold DoDifference.call. simpl. by rewrite Hin.
  - intros index. rewrite difference_spec. by eexists.
Qed.

End DifferenceClaims.

(** ** Feeding the spatial tree *)

Section Tree.
Context `{Collaborators}.

Lemma region_of_points (l : list PointD) (acc : RegionT) :
  foldl (fun rgn p => m2.AddPoint rgn (D2I p)) acc l = acc ++ map D2I l.
Proof.
  revert acc. induction l as [|p l IH]; intros acc; simpl.
  - by rewrite app_nil_r.
  - rewrite IH. unfold m2.AddPoint. by rewrite <- app_assoc.
Qed.

(** What one polygon adds to the tree: nothing when it is empty, otherwise
    the region of its quantized points from the second one on. *)
Lemma AddRegionToTree_polygon_spec (polygon : list PointD) (tree : m4.Tree) :
  AddRegionToTree_polygon polygon tree
  = tree ++ match polygon with
            | [] => []
            | _ :: _ => [(m2.GetRect (map D2I (tail polygon)),
                          map D2I (tail polygon))]
            end.
Proof.
  destruct polygon as [|p rest]; simpl.
  - by rewrite app_nil_r.
  - unfold m4.Add. by rewrite region_of_points, GetLimitRect_GetRect.
Qed.

Lemma AddRegionToTree_polygons_spec (ps : list (list PointD)) (tree : m4.Tree) :
  foldl (fun acc polygon => AddRegionToTree_polygon polygon acc) tree ps
  = tree ++ flat_map (fun polygon =>
              match polygon with
              | [] => []
              | _ :: _ => [(m2.GetRect (map D2I (tail polygon)),
                            map D2I (tail polygon))]
              end) ps.
Proof.
  revert tree. induction ps as [|p ps IH]; intros tree.
  - simpl. by rewrite app_nil_r.
  - cbn [foldl flat_map]. rewrite IH, AddRegionToTree_polygon_spec.
    by rewrite <- app_assoc.
Qed.

(** C2 (amended). For every closed feature builder given to [Process], and
    for every closed ring the merger forwards to [DoAddToTree] during
    [Finish], each non-empty polygon is inserted into the spatial tree, in
    order, as the region of the polygon's quantized points with the first
    point skipped: the region starts at the polygon's second vertex and
    keeps the last one. For a ring [first :: mid ++ [first]] the region is
    therefore [mid] followed by the trailing copy of [first]; only the
    leading copy is dropped. *)
Theorem C2_closed_polygon_inserted_without_first_point
    (g : CoastlineFeaturesGenerator) (fb : FeatureBuilder.t) :
  IsGeometryClosed fb = true ->
  let g' := MkGenerator _ (m_merger g)
              (m_tree g ++
               flat_map (fun polygon =>
                 match polygon with
                 | [] => []
                 | _ :: _ => [(m2.GetRect (map D2I (tail polygon)),
                               map D2I (tail polygon))]
                 end) (FeatureBuilder.m_polygons fb)) in
  Process g fb = Some g' /\
  (forall (count points : Z) (log : list LogMessage),
     DoAddToTree.call (DoAddToTree.Mk g count points, log) fb
     = Some (DoAddToTree.Mk g' count points, log)) /\
  (forall (first : PointD) (mid : list PointD),
     map D2I (tail (first :: mid ++ [first])) = map D2I mid ++ [D2I first]).
Proof.
  intros Hclosed g'.
  assert (AddRegionToTree g fb = Some g') as Hadd.
  { unfold AddRegionToTree. rewrite Hclosed.
    unfold FeatureBuilder.ForEachPolygon.
    by rewrite AddRegionToTree_polygons_spec. }
  split; [|split].
  - unfold Process. by rewrite Hclosed.
  - intros count points log. unfold DoAddToTree.call.
    rewrite Hclosed. simpl. by rewrite Hadd.
  - intros first mid. simpl. by rewrite map_app.
Qed.

(** C10. A polygon with zero points in a closed feature builder is skipped
    silently: the call returns a generator (no assertion fails), the merger
    is untouched, and the tree is the one obtained from the other polygons
    of the builder, those before and those after the empty one alike. *)
Theorem C10_empty_polygon_skipped
    (g : CoastlineFeaturesGenerator) (fb : FeatureBuilder.t)
    (before after : list (list PointD)) :
  IsGeometryClosed fb = true ->
  FeatureBuilder.m_polygons fb = before ++ [] :: after ->
  AddRegionToTree_polygon [] (m_tree g) = m_tree g /\
  exists g' : CoastlineFeaturesGenerator,
    Process g fb = Some g' /\
    AddRegionToTree g fb = Some g' /\
    m_merger g' = m_merger g /\
    m_tree g'
    = foldl (fun acc polygon => AddRegionToTree_polygon polygon acc)
            (m_tree g) (before ++ after).
Proof.
  intros Hclosed Hps. split; [done|].
  unfold Process, AddRegionToTree. rewrite Hclosed.
  eexists. split; [done|]. split; [done|]. split; [done|]. simpl.
  unfold FeatureBuilder.ForEachPolygon. rewrite Hps.
  by rewrite !foldl_app.
Qed.

End Tree.

(** ** Finish *)

Section FinishFacts.
Context `{Collaborators}.

(** The line [DoAddToTree] logs for an open chain. *)
Lemma call_open (d : DoAddToTree.t) (log : list LogMessage) (fb : FeatureBuilder.t) :
  IsGeometryClosed fb = false ->
  DoAddToTree.call (d, log) fb
  = Some (DoAddToTree.Mk (DoAddToTree.m_rMain d)
            (to_size_t (DoAddToTree.m_notMergedCoastsCount d + 1))
            (to_size_t (DoAddToTree.m_totalNotMergedCoastsPoints d
                        + FeatureBuilder.GetPointsCount fb)),
          log ++ [if GetFirstOsmId fb =? GetLastOsmId fb
                  then NotMergedWay (GetSerialId (GetFirstOsmId fb))
                                    (FeatureBuilder.GetPointsCount fb)
                  else NotMergedWays (GetSerialId (GetFirstOsmId fb))
                                     (GetSerialId (GetLastOsmId fb))
                                     (FeatureBuilder.GetPointsCount fb)]).
Proof.
  intros Hopen. unfold DoAddToTree.call. rewrite Hopen. by destruct (_ =? _).
Qed.

Lemma call_closed (d : DoAddToTree.t) (log : list LogMessage) (fb : FeatureBuilder.t) :
  IsGeometryClosed fb = true ->
  DoAddToTree.call (d, log) fb
  = Some (DoAddToTree.Mk
            (MkGenerator _ (m_merger (DoAddToTree.m_rMain d))
               (FeatureBuilder.ForEachPolygon fb AddRegionToTree_polygon
                  (m_tree (DoAddToTree.m_rMain d))))
            (DoAddToTree.m_notMergedCoastsCount d)
            (DoAddToTree.m_totalNotMergedCoastsPoints d),
          log).
Proof.
  intros Hclosed. unfold DoAddToTree.call, AddRegionToTree. by rewrite Hclosed.
Qed.

(** The emitter over the chains of a flush: closed chains go to the tree,
    open chains are counted and logged, and nothing fails. *)
Lemma emit_chains (chains : list FeatureBuilder.t) (d : DoAddToTree.t)
    (log : list LogMessage) :
  0 <= DoAddToTree.m_notMergedCoastsCount d < 2 ^ 64 ->
  exists (tree : m4.Tree) (points : Z),
    foldl (fun acc fb => acc ≫= fun s => DoAddToTree.call s fb) (Some (d, log)) chains
    = Some (DoAddToTree.Mk
              (MkGenerator _ (m_merger (DoAddToTree.m_rMain d)) tree)
              (to_size_t (DoAddToTree.m_notMergedCoastsCount d
                 + Z.of_nat (length (filter (fun fb => IsGeometryClosed fb = false)
                                            chains))))
              points,
            log ++ map (fun fb =>
                     if GetFirstOsmId fb =? GetLastOsmId fb
                     then NotMergedWay (GetSerialId (GetFirstOsmId fb))
                                       (FeatureBuilder.GetPointsCount fb)
                     else NotMergedWays (GetSerialId (GetFirstOsmId fb))
                                        (GetSerialId (GetLastOsmId fb))
                                        (FeatureBuilder.GetPointsCount fb))
                   (filter (fun fb => IsGeometryClosed fb = false) chains)) /\
    tree = foldl (fun tree fb =>
                    FeatureBuilder.ForEachPolygon fb AddRegionToTree_polygon tree)
                 (m_tree (DoAddToTree.m_rMain d))
                 (filter (fun fb => IsGeometryClosed fb = true) chains).
Proof.
  revert d log. induction chains as [|fb chains IH]; intros d log Hcount.
  - exists (m_tree (DoAddToTree.m_rMain d)), (DoAddToTree.m_totalNotMergedCoastsPoints d).
    simpl. rewrite Z.add_0_r, app_nil_r, to_size_t_small by done.
    split; [|done]. by destruct d as [[] ? ?].
  - cbn [foldl mbind option_bind].
    destruct (IsGeometryClosed fb) eqn:Hfb.
    + rewrite call_closed by done.
      match goal with
      | |- context [foldl _ (Some (?d', ?l')) chains] =>
          destruct (IH d' l') as (tree & points & Hrun & Htree); [exact Hcount|]
      end.
      exists tree, points. rewrite Hrun. simpl.
      rewrite !filter_cons, Hfb.
      rewrite decide_False by done. rewrite decide_True by done.
      split; [done|]. exact Htree.
    + rewrite call_open by done.
      match goal with
      | |- context [foldl _ (Some (?d', ?l')) chains] =>
          destruct (IH d' l') as (tree & points & Hrun & Htree);
            [simpl; apply to_size_t_range|]
      end.
      exists tree, points. rewrite Hrun. simpl.
      rewrite !filter_cons, Hfb.
      rewrite decide_True by done. rewrite decide_False by done.
      split; [|exact Htree].
      simpl. rewrite to_size_t_add_l, <- app_assoc. simpl.
      by rewrite Nat2Z.inj_succ, <- Z.add_1_l, Z.add_assoc.
Qed.

End FinishFacts.

Section FinishClaim.
Context `{Collaborators}.


End FinishClaim.

(** ** The measure of the splitter *)

Section MeasureFacts.
Import RegionInCellSplitter Measure.
Local Open Scope nat_scope.

Lemma subtree_size_pos (d : nat) : 1 <= subtree_size d.
Proof. destruct d; simpl; lia. Qed.

Lemma cell_weight_pos (c : TCell) : 1 <= cell_weight c.
Proof. apply subtree_size_pos. Qed.

Lemma tasks_weight_app (l1 l2 : list TCell) :
  tasks_weight (l1 ++ l2) = tasks_weight l1 + tasks_weight l2.
Proof. induction l1 as [|c l1 IH]; simpl; [done|]. rewrite IH. lia. Qed.

Lemma cell_weight_child (c : TCell) (i : Z) :
  (RectId.Level c < kHighLevel)%Z ->
  cell_weight c = 1 + 4 * cell_weight (RectId.Child c i).
Proof.
  intros Hlevel. unfold cell_weight, RectId.Child, RectId.Level in *. simpl.
  replace (Z.to_nat (kHighLevel - RectId.m_level c))
    with (Datatypes.S (Z.to_nat (kHighLevel - (RectId.m_level c + 1)))) by lia.
  done.
Qed.

Lemma children_eq (c : TCell) :
  children c
  = [RectId.Child c 0; RectId.Child c 1; RectId.Child c 2; RectId.Child c 3].
Proof. reflexivity. Qed.

(** The four children of a cell below the high level weigh three less
    than the cell. *)
Lemma children_weight (c : TCell) :
  (RectId.Level c < kHighLevel)%Z ->
  tasks_weight (children c) + 3 = 3 * cell_weight c.
Proof.
  intros Hlevel. rewrite children_eq. simpl.
  pose proof (cell_weight_child c 0 Hlevel).
  pose proof (cell_weight_child c 1 Hlevel).
  pose proof (cell_weight_child c 2 Hlevel).
  pose proof (cell_weight_child c 3 Hlevel).
  lia.
Qed.

Lemma threads_weight_insert (ws : list Worker) (i : nat) (w w' : Worker) :
  ws !! i = Some w ->
  threads_weight (<[i := w']> ws) + worker_weight w
  = threads_weight ws + worker_weight w'.
Proof.
  revert i. induction ws as [|w0 ws IH]; intros [|i] Hi; simplify_eq/=.
  - lia.
  - specialize (IH i Hi). lia.
Qed.

Lemma working_insert (ws : list Worker) (i : nat) (w w' : Worker) :
  ws !! i = Some w ->
  working (<[i := w']> ws) + working [w] = working ws + working [w'].
Proof.
  revert i. induction ws as [|w0 ws IH]; intros [|i] Hi; simplify_eq/=.
  - destruct w, w'; lia.
  - specialize (IH i Hi). simpl in IH. destruct w0; lia.
Qed.

Lemma working_le_length (ws : list Worker) : working ws <= length ws.
Proof. induction ws as [|w ws IH]; simpl; [done|]. destruct w; lia. Qed.

Lemma working_zero (ws : list Worker) :
  working ws = 0 <-> forall j c, ws !! j <> Some (Working c).
Proof.
  induction ws as [|w ws IH]; simpl.
  - split; [intros _ j c; by rewrite lookup_nil|done].
  - split.
    + intros Hw [|j] c; destruct w; simplify_eq/=; try done.
      all: by apply IH.
    + intros Hno. destruct w as [|c|].
      * apply IH. intros j c. apply (Hno (Datatypes.S j)).
      * by specialize (Hno 0 c).
      * apply IH. intros j c. apply (Hno (Datatypes.S j)).
Qed.

Lemma working_replicate_waiting (n : nat) : working (replicate n Waiting) = 0.
Proof. induction n; simpl; done. Qed.

End MeasureFacts.

(** ** Steps of the splitter *)

Section SplitterFacts.
Import RegionInCellSplitter Measure.
Context `{Collaborators} `{m2.Intersection} {S : Type}.
Variable f : TCell -> DoDifference.t -> S -> S.
Variable index : TIndex.

Lemma ProcessCell_spec (cell : TCell) (out : S) :
  exists doDiff : DoDifference.t,
    difference index cell = Some doDiff /\
    head (DoDifference.m_res doDiff) = Some (rectR cell) /\
    ProcessCell f index cell out
    = Some (if (RectId.Level cell <? kHighLevel)
               && (kMaxPoints <=? DoDifference.GetPointsCount doDiff)
            then (false, out)
            else (true, f cell doDiff out)).
Proof.
  unfold ProcessCell. rewrite difference_spec.
  eexists. split; [done|]. split; [done|]. simpl.
  by destruct (_ && _).
Qed.

Lemma run_cons (i : nat) (schedule : list nat) (st : State) :
  run f index (i :: schedule) st = thread_step f index i st ≫= run f index schedule.
Proof.
  unfold run. simpl. destruct (thread_step f index i st) as [st'|]; simpl; [done|].
  induction schedule as [|j schedule IH]; simpl; done.
Qed.

Lemma run_snoc (i : nat) (schedule : list nat) (st : State) :
  run f index (schedule ++ [i]) st = run f index schedule st ≫= thread_step f index i.
Proof. unfold run. by rewrite foldl_app. Qed.

(** A property that holds at the start and is kept by every step of every
    thread holds after every interleaving. *)
Lemma run_invariant (P : State -> Prop) :
  (forall i st st', P st -> thread_step f index i st = Some st' -> P st') ->
  forall schedule st st', P st -> run f index schedule st = Some st' -> P st'.
Proof.
  intros Hstep schedule. induction schedule as [|i schedule IH]; intros st st' HP Hrun.
  - unfold run in Hrun. by simplify_eq/=.
  - rewrite run_cons in Hrun.
    destruct (thread_step f index i st) as [st1|] eqn:Hi; simplify_eq/=.
    eapply IH; [|exact Hrun]. by eapply Hstep.
Qed.

(** The three moves of a thread. *)
Lemma thread_step_cases (i : nat) (st st' : State) :
  thread_step f index i st = Some st' ->
  (exists currentCell rest,
     threads st !! i = Some Waiting /\
     listTasks (m_ctx st) = currentCell :: rest /\
     st' = MkState (MkContext rest (to_size_t (inWork (m_ctx st) + 1))
                              (output (m_ctx st)))
                   (<[i := Working currentCell]> (threads st))) \/
  (threads st !! i = Some Waiting /\
   listTasks (m_ctx st) = [] /\ inWork (m_ctx st) = 0 /\
   st' = MkState (m_ctx st) (<[i := Exited]> (threads st))) \/
  (exists currentCell doDiff,
     threads st !! i = Some (Working currentCell) /\
     difference index currentCell = Some doDiff /\
     head (DoDifference.m_res doDiff) = Some (rectR currentCell) /\
     st' = MkState
             (if (RectId.Level currentCell <? kHighLevel)
                 && (kMaxPoints <=? DoDifference.GetPointsCount doDiff)
              then MkContext (listTasks (m_ctx st) ++ children currentCell)
                             (to_size_t (inWork (m_ctx st) - 1))
                             (output (m_ctx st))
              else MkContext (listTasks (m_ctx st))
                             (to_size_t (inWork (m_ctx st) - 1))
                             (f currentCell doDiff (output (m_ctx st))))
             (<[i := Waiting]> (threads st))).
Proof.
  unfold thread_step. intros Hstep.
  destruct (threads st !! i) as [[|c|]|] eqn:Hi; [| |done|done].
  - destruct (listTasks (m_ctx st)) as [|c rest] eqn:Htasks.
    + destruct (inWork (m_ctx st) =? 0) eqn:Hw; [|done].
      right; left. apply Z.eqb_eq in Hw. by simplify_eq.
    + left. exists c, rest. by simplify_eq.
  - right; right.
    destruct (ProcessCell_spec c (output (m_ctx st))) as (d & Hd & Hfront & HP).
    rewrite HP in Hstep. exists c, d.
    split; [done|]. split; [done|]. split; [done|].
    destruct (_ && _); by simplify_eq/=.
Qed.

(** A thread that is processing a cell can always complete its step. *)
Lemma thread_step_working (i : nat) (st : State) (c : TCell) :
  threads st !! i = Some (Working c) ->
  is_Some (thread_step f index i st).
Proof.
  intros Hi. unfold thread_step. rewrite Hi.
  destruct (ProcessCell_spec c (output (m_ctx st))) as (d & _ & _ & HP).
  rewrite HP. by destruct (_ && _).
Qed.

End SplitterFacts.

Section SplitterProgress.
Import RegionInCellSplitter Measure.
Context `{Collaborators} `{m2.Intersection} {S : Type}.
Variable f : TCell -> DoDifference.t -> S -> S.
Variable index : TIndex.

(** Every step of every thread lowers the measure. *)
Lemma thread_step_measure (i : nat) (st st' : State) :
  thread_step f index i st = Some st' ->
  (measure st' < measure st)%nat.
Proof.
  intros Hstep.
  destruct (thread_step_cases f index i st st' Hstep)
    as [(c & rest & Hi & Htasks & ->)|[(Hi & Htasks & Hw & ->)
       |(c & d & Hi & Hd & _ & ->)]]; unfold measure; simpl.
  - rewrite Htasks. simpl.
    pose proof (threads_weight_insert _ _ _ (Working c) Hi) as Hw. simpl in Hw.
    pose proof (cell_weight_pos c). lia.
  - pose proof (threads_weight_insert _ _ _ Exited Hi) as Hw'. simpl in Hw'. lia.
  - pose proof (threads_weight_insert _ _ _ Waiting Hi) as Hw. simpl in Hw.
    pose proof (cell_weight_pos c).
    destruct (RectId.Level c <? kHighLevel) eqn:Hlevel; simpl.
    + apply Z.ltb_lt in Hlevel. pose proof (children_weight c Hlevel).
      destruct (kMaxPoints <=? _); simpl; [rewrite tasks_weight_app|]; lia.
    + lia.
Qed.

(** No interleaving is longer than the measure of the state it starts
    from. *)
Lemma run_measure (schedule : list nat) (st st' : State) :
  run f index schedule st = Some st' ->
  (length schedule + measure st' <= measure st)%nat.
Proof.
  revert st. induction schedule as [|i schedule IH]; intros st Hrun.
  - unfold run in Hrun. simplify_eq/=. lia.
  - rewrite run_cons in Hrun.
    destruct (thread_step f index i st) as [st1|] eqn:Hi; simplify_eq/=.
    pose proof (thread_step_measure _ _ _ Hi). specialize (IH _ Hrun). lia.
Qed.

Lemma thread_step_length (i : nat) (st st' : State) :
  thread_step f index i st = Some st' ->
  length (threads st') = length (threads st).
Proof.
  intros Hstep.
  destruct (thread_step_cases f index i st st' Hstep)
    as [(c & rest & Hi & Htasks & ->)|[(Hi & Htasks & Hw & ->)
       |(c & d & Hi & Hd & _ & ->)]]; simpl; by rewrite length_insert.
Qed.

(** The steps keep [inWork] equal to the number of processing threads (the
    [size_t] never wraps as there are fewer than [2^64] threads) and keep
    the list empty once a thread has left. *)
Lemma thread_step_consistent (i : nat) (st st' : State) :
  Z.of_nat (length (threads st)) < 2 ^ 64 ->
  consistent st ->
  thread_step f index i st = Some st' ->
  consistent st'.
Proof.
  intros Hlen [Hwork Hexit] Hstep.
  pose proof (working_le_length (threads st)) as Hle.
  assert (forall w j, threads st !! i = Some w -> w <> Exited ->
            forall w', w' <> Exited ->
            <[i := w']> (threads st) !! j = Some Exited ->
            exists k, threads st !! k = Some Exited) as Hkeep.
  { intros w j Hi Hw w' Hw' Hj. exists j.
    destruct (decide (i = j)) as [->|Hne].
    - rewrite list_lookup_insert_eq in Hj by (by eapply lookup_lt_Some).
      by simplify_eq.
    - by rewrite list_lookup_insert_ne in Hj. }
  destruct (thread_step_cases f index i st st' Hstep)
    as [(c & rest & Hi & Htasks & ->)|[(Hi & Htasks & Hw & ->)
       |(c & d & Hi & Hd & _ & ->)]]; unfold consistent; simpl.
  - pose proof (working_insert _ _ _ (Working c) Hi) as Hins. simpl in Hins.
    pose proof (working_le_length (<[i := Working c]> (threads st))) as Hle'.
    rewrite length_insert in Hle'.
    split.
    + rewrite Hwork, to_size_t_small by lia. lia.
    + intros [j Hj].
      destruct (Hexit (Hkeep Waiting j Hi ltac:(done) (Working c) ltac:(done) Hj))
        as [Hnil _].
      by rewrite Htasks in Hnil.
  - pose proof (working_insert _ _ _ Exited Hi) as Hins. simpl in Hins.
    split; [lia|]. intros _. split; [done|]. lia.
  - pose proof (working_insert _ _ _ Waiting Hi) as Hins. simpl in Hins.
    assert (inWork (m_ctx st) - 1 = Z.of_nat (working (<[i := Waiting]> (threads st))))
      as Hdec by lia.
    assert (forall tasks (out : S),
              consistent (MkState (MkContext tasks
                                     (to_size_t (inWork (m_ctx st) - 1)) out)
                                  (<[i := Waiting]> (threads st)))) as Hgoal.
    { intros tasks out. unfold consistent. simpl. split.
      - rewrite Hdec, to_size_t_small; [done|].
        pose proof (working_le_length (<[i := Waiting]> (threads st))) as Hle'.
        rewrite length_insert in Hle'. lia.
      - intros [j Hj].
        destruct (Hexit (Hkeep (Working c) j Hi ltac:(done) Waiting ltac:(done) Hj))
          as [_ Hzero].
        lia. }
    destruct (_ && _); apply Hgoal.
Qed.

(** When no thread can move, every thread has left its loop, and if there
    is a thread at all the list of tasks is empty. *)
Lemma terminal_joined (st : State) :
  consistent st ->
  terminal f index st ->
  joined st = true /\ (threads st <> [] -> listTasks (m_ctx st) = []).
Proof.
  intros [Hwork Hexit] Hterm.
  assert (forall j c, threads st !! j <> Some (Working c)) as Hidle.
  { intros j c Hj. destruct (thread_step_working f index j st c Hj) as [st' Hst'].
    by rewrite Hterm in Hst'. }
  assert (forall j w, threads st !! j = Some w -> w = Exited) as Hall.
  { intros j w Hj. destruct w as [|c|]; [|by apply Hidle in Hj|done].
    specialize (Hterm j). unfold thread_step in Hterm. rewrite Hj in Hterm.
    destruct (listTasks (m_ctx st)); [|done].
    apply working_zero in Hidle. rewrite Hidle in Hwork.
    by rewrite Hwork in Hterm. }
  split.
  - unfold joined. apply forallb_forall. intros w Hw.
    apply list_elem_of_In, list_elem_of_lookup in Hw as [j Hj].
    by rewrite (Hall j w Hj).
  - intros Hne. apply Hexit. destruct (threads st) as [|w ws] eqn:E; [done|].
    exists 0%nat. simpl. f_equal. by apply (Hall 0%nat).
Qed.

End SplitterProgress.

Section SplitterRuns.
Import RegionInCellSplitter Measure.
Context `{Collaborators} `{m2.Intersection} {S : Type}.
Variable f : TCell -> DoDifference.t -> S -> S.
Variable index : TIndex.

(** Whether some thread can move is decidable: only the threads that exist
    have to be tried. *)
Lemma can_step_or_terminal (st : State) :
  (exists i st', thread_step f index i st = Some st') \/ terminal f index st.
Proof.
  assert (forall n : nat,
            (exists i st', thread_step f index i st = Some st') \/
            (forall i, (i < n)%nat -> thread_step f index i st = None)) as Hsearch.
  { induction n as [|n [IH|IH]]; [right; lia|by left|].
    destruct (thread_step f index n st) as [st'|] eqn:Hn; [left; eauto|].
    right. intros i Hi. destruct (decide (i = n)) as [->|Hne]; [done|].
    apply IH. lia. }
  destruct (Hsearch (length (threads st))) as [Hyes|Hno]; [by left|].
  right. intros i. destruct (decide (i < length (threads st))%nat) as [Hi|Hi].
  - by apply Hno.
  - unfold thread_step. rewrite lookup_ge_None_2; [done|lia].
Qed.

(** From every state some interleaving leads to a state where no thread
    can move. *)
Lemma run_to_terminal (st : State) :
  exists schedule st', run f index schedule st = Some st' /\ terminal f index st'.
Proof.
  remember (measure st) as m eqn:Hm. revert st Hm.
  induction m as [m IH] using lt_wf_ind. intros st ->.
  destruct (can_step_or_terminal st) as [(i & st1 & Hi)|Hterm].
  - destruct (IH (measure st1) (thread_step_measure f index _ _ _ Hi) st1 eq_refl)
      as (schedule & st' & Hrun & Hterm).
    exists (i :: schedule), st'. split; [|done].
    rewrite run_cons, Hi. done.
  - exists [], st. done.
Qed.

Lemma Process_start_consistent (numThreads : nat) (baseScale : Z) (out : S) :
  consistent (Process_start numThreads baseScale out).
Proof.
  unfold consistent, Process_start. simpl.
  rewrite working_replicate_waiting. split; [done|].
  intros [i Hi]. apply lookup_replicate in Hi as [? _]. done.
Qed.

(** Every interleaving keeps the number of threads and the consistency of the
    shared context. *)
Lemma run_consistent (schedule : list nat) (st st' : State) :
  Z.of_nat (length (threads st)) < 2 ^ 64 ->
  consistent st ->
  run f index schedule st = Some st' ->
  consistent st' /\ length (threads st') = length (threads st).
Proof.
  intros Hlen Hcons Hrun.
  apply (run_invariant f index
           (fun s => consistent s /\ length (threads s) = length (threads st)))
    with (schedule := schedule) (st := st); [|done|done].
  intros i s s' [Hs Hl] Hstep. split.
  - eapply thread_step_consistent; [|done|done]. by rewrite Hl.
  - by rewrite (thread_step_length f index _ _ _ Hstep).
Qed.

Lemma threads_weight_replicate_waiting (n : nat) :
  threads_weight (replicate n Waiting) = n.
Proof. induction n as [|n IH]; simpl; [done|]. by rewrite IH. Qed.

Lemma tasks_weight_level (l : list Z) (level : Z) :
  tasks_weight (map (fun i => RectId.FromBitsAndLevel i level) l)
  = (length l * (3 * subtree_size (Z.to_nat (kHighLevel - level))))%nat.
Proof.
  induction l as [|i l IH]; [done|].
  cbn [map tasks_weight foldr length].
  fold (tasks_weight (map (fun i => RectId.FromBitsAndLevel i level) l)).
  rewrite IH. unfold cell_weight, RectId.FromBitsAndLevel, RectId.Level. simpl. lia.
Qed.

(** The measure of the start state: 256 cells of level 4, each the root of
    a subtree of 5461 cells, and one unit per thread. *)
Lemma Process_start_measure (numThreads : nat) (out : S) :
  Z.of_nat (measure (Process_start numThreads kStartLevel out))
  = 4194048 + Z.of_nat numThreads.
Proof.
  unfold measure, Process_start. cbn [m_ctx listTasks threads].
  rewrite threads_weight_replicate_waiting, tasks_weight_level, length_seqZ.
  rewrite Nat2Z.inj_add, Nat2Z.inj_mul. f_equal.
Qed.

End SplitterRuns.

Section SplitterClaims.
Import RegionInCellSplitter Measure.
Context `{Collaborators} `{m2.Intersection} {S : Type}.
Variable f : TCell -> DoDifference.t -> S -> S.
Variable index : TIndex.

(** C3. A thread that finds the list non-empty pops its front cell and
    holds it as [currentCell]. For every cell so held, whatever the other
    threads did meanwhile, the thread's next step computes the difference
    of the cell and then: if the level of the cell is strictly less than
    [kHighLevel] (10) and the points of the difference are at least
    [kMaxPoints] (20000), the result is dropped (the output is untouched)
    and exactly the four children of the cell are appended to the list;
    otherwise the list is untouched and the callback is applied exactly
    once, to that cell and its difference. *)
Theorem C3_subdivide_or_emit (i : nat) (currentCell : TCell) :
  (forall (st : State) (rest : list TCell),
     threads st !! i = Some Waiting ->
     listTasks (m_ctx st) = currentCell :: rest ->
     exists popped : State,
       thread_step f index i st = Some popped /\
       threads popped !! i = Some (Working currentCell) /\
       listTasks (m_ctx popped) = rest /\
       output (m_ctx popped) = output (m_ctx st)) /\
  (forall st : State,
     threads st !! i = Some (Working currentCell) ->
     exists (doDiff : DoDifference.t) (st' : State),
       difference index currentCell = Some doDiff /\
       thread_step f index i st = Some st' /\
       threads st' = <[i := Waiting]> (threads st) /\
       if (RectId.Level currentCell <? kHighLevel)
          && (kMaxPoints <=? DoDifference.GetPointsCount doDiff)
       then output (m_ctx st') = output (m_ctx st) /\
            listTasks (m_ctx st')
            = listTasks (m_ctx st)
              ++ [RectId.Child currentCell 0; RectId.Child currentCell 1;
                  RectId.Child currentCell 2; RectId.Child currentCell 3]
       else output (m_ctx st') = f currentCell doDiff (output (m_ctx st)) /\
            listTasks (m_ctx st') = listTasks (m_ctx st)).
Proof.
  split.
  - intros st rest Hi Htasks. unfold thread_step. rewrite Hi, Htasks.
    eexists. split; [done|]. simpl. split; [|done].
    apply list_lookup_insert_eq. by eapply lookup_lt_Some.
  - intros st Hi.
    destruct (thread_step_working f index i st currentCell Hi) as [st' Hstep].
    destruct (thread_step_cases f index i st st' Hstep)
      as [(c & rest & Hi' & _)|[(Hi' & _)|(c & d & Hi' & Hd & _ & ->)]];
      [congruence|congruence|].
    assert (c = currentCell) as -> by congruence.
    exists d. eexists. split; [done|]. split; [done|]. split; [done|].
    destruct (_ && _); simpl; by rewrite ?children_eq.
Qed.

End SplitterClaims.

Section Termination.
Import RegionInCellSplitter Measure.
Context `{Collaborators} `{m2.Intersection} {S : Type}.
Variable f : TCell -> DoDifference.t -> S -> S.
Variable index : TIndex.

(** C9. For every index and every number of threads (at least one, and
    fewer than [2^64]), starting from the [4^4 = 256] seed tasks:
    - every interleaving of the threads is finite, of at most
      [4194048 + numThreads] steps;
    - some interleaving runs [Process] to completion, and it returns [true]
      (the list ends empty);
    - whenever no thread can move, every thread has left its loop and the
      list is empty, so the threads never block for ever;
    - a waiting thread leaves its loop exactly when the list is empty and
      no thread is processing a cell;
    - children are pushed only for a cell of level strictly below
      [kHighLevel], and each child is one level deeper. *)
Theorem C9_splitter_runs_to_completion (numThreads : nat) (out : S) :
  (0 < numThreads)%nat ->
  Z.of_nat numThreads < 2 ^ 64 ->
  let start := Process_start numThreads kStartLevel out in
  length (listTasks (m_ctx start)) = 256%nat /\
  (forall schedule st,
     run f index schedule start = Some st ->
     Z.of_nat (length schedule) <= 4194048 + Z.of_nat numThreads) /\
  (exists schedule out',
     Process f index schedule numThreads kStartLevel out = Some (true, out')) /\
  (forall schedule st,
     run f index schedule start = Some st ->
     terminal f index st ->
     joined st = true /\ listTasks (m_ctx st) = []) /\
  (forall schedule st i,
     run f index schedule start = Some st ->
     threads st !! i = Some Waiting ->
     (thread_step f index i st
      = Some (MkState (m_ctx st) (<[i := Exited]> (threads st)))
      <-> listTasks (m_ctx st) = [] /\
          forall j c, threads st !! j <> Some (Working c))) /\
  (forall i st st' c,
     threads st !! i = Some (Working c) ->
     thread_step f index i st = Some st' ->
     listTasks (m_ctx st') <> listTasks (m_ctx st) ->
     RectId.Level c < kHighLevel /\
     listTasks (m_ctx st') = listTasks (m_ctx st) ++ children c /\
     forall c', c' ∈ children c -> RectId.Level c' = RectId.Level c + 1).
Proof.
  intros Hpos Hlt start.
  assert (Z.of_nat (length (threads start)) < 2 ^ 64) as Hlen.
  { unfold start, Process_start. simpl. by rewrite length_replicate. }
  pose proof (Process_start_consistent numThreads kStartLevel out) as Hcons.
  fold start in Hcons.
  assert (forall schedule st, run f index schedule start = Some st ->
            consistent st /\ threads st <> []) as Hreach.
  { intros schedule st Hrun.
    destruct (run_consistent f index schedule start st Hlen Hcons Hrun) as [Hc Hl].
    split; [done|]. intros Hnil. rewrite Hnil in Hl.
    unfold start, Process_start in Hl. simpl in Hl.
    rewrite length_replicate in Hl. lia. }
  split; [done|]. split; [|split; [|split; [|split]]].
  - intros schedule st Hrun.
    pose proof (run_measure f index schedule start st Hrun) as Hm.
    pose proof (Process_start_measure numThreads out) as Hstart.
    fold start in Hstart. lia.
  - destruct (run_to_terminal f index start) as (schedule & st & Hrun & Hterm).
    destruct (Hreach schedule st Hrun) as [Hc Hne].
    destruct (terminal_joined f index st Hc Hterm) as [Hjoined Hempty].
    exists schedule, (output (m_ctx st)). unfold Process. fold start.
    rewrite Hrun. simpl. rewrite Hjoined, (Hempty Hne). done.
  - intros schedule st Hrun Hterm.
    destruct (Hreach schedule st Hrun) as [Hc Hne].
    destruct (terminal_joined f index st Hc Hterm) as [Hjoined Hempty].
    split; [done|]. by apply Hempty.
  - intros schedule st i Hrun Hi.
    destruct (Hreach schedule st Hrun) as [[Hwork _] _].
    unfold thread_step. rewrite Hi. rewrite <- working_zero. split.
    + intros Hstep. destruct (listTasks (m_ctx st)) as [|c rest] eqn:Htasks.
      * split; [done|]. destruct (inWork (m_ctx st) =? 0) eqn:Hz; [|done].
        apply Z.eqb_eq in Hz. lia.
      * exfalso. simplify_eq. 
        assert (<[i := Working c]> (threads st) !! i = <[i := Exited]> (threads st) !! i)
          as Heq by congruence.
        rewrite !list_lookup_insert_eq in Heq by (by eapply lookup_lt_Some). done.
    + intros [-> Hzero]. rewrite Hwork, Hzero. done.
  - intros i st st' c Hi Hstep Hchanged.
    destruct (thread_step_cases f index i st st' Hstep)
      as [(c' & rest & Hi' & _)|[(Hi' & _)|(c' & d & Hi' & Hd & _ & ->)]];
      [congruence|congruence|].
    assert (c' = c) as -> by congruence.
    destruct (RectId.Level c <? kHighLevel) eqn:Hlevel; simpl in *; [|done].
    destruct (kMaxPoints <=? _); simpl in *; [|done].
    apply Z.ltb_lt in Hlevel. split; [done|]. split; [done|].
    intros c' Hc'. rewrite children_eq in Hc'.
    repeat (apply elem_of_cons in Hc' as [->|Hc']; [done|]).
    by apply elem_of_nil in Hc'.
Qed.

End Termination.

(** ** The features of the cells *)

Section FeatureFacts.
Import RegionInCellSplitter Measure.
Context `{Collaborators} `{m2.Intersection}.

Lemma rectR_eq (cell : TCell) :
  rectR cell
  = let '(minX, minY, maxX, maxY) := GetCellBounds cell in
    [D2I (minX, minY); D2I (minX, maxY); D2I (maxX, maxY); D2I (maxX, minY)].
Proof. unfold rectR. by destruct (GetCellBounds cell) as [[[? ?] ?] ?]. Qed.

Lemma rectR_length (cell : TCell) : length (rectR cell) = 4%nat.
Proof. rewrite rectR_eq. by destruct (GetCellBounds cell) as [[[? ?] ?] ?]. Qed.

(** The points [ForEachPoint] pushes for a region. *)
Lemma call_points (r : RegionT) (d : DoDifference.t) :
  foldl DoDifference.call_point d r
  = DoDifference.Mk (DoDifference.m_src d) (DoDifference.m_res d)
      (DoDifference.m_points d
       ++ map (fun p => PointUToPointD (to_uint32 (fst p), to_uint32 (snd p))
                                       kPointCoordBits) r).
Proof.
  revert d. induction r as [|p r IH]; intros d; simpl.
  - rewrite app_nil_r. by destruct d.
  - rewrite IH. simpl. by rewrite <- app_assoc.
Qed.

(** [AssignGeometry] adds one polygon per region, in order, each with the
    lattice points of the region converted back. *)
Lemma AssignGeometry_regions (rs : list RegionT) (d : DoDifference.t)
    (fb : FeatureBuilder.t) :
  snd (foldl DoDifference.AssignGeometry_region (d, fb) rs)
  = FeatureBuilder.MkFeature _
      (FeatureBuilder.m_polygons fb
       ++ map (map (fun p => PointUToPointD (to_uint32 (fst p), to_uint32 (snd p))
                                            kPointCoordBits)) rs)
      (FeatureBuilder.m_osmIds fb) (FeatureBuilder.m_coastCell fb)
      (FeatureBuilder.m_isArea fb) (FeatureBuilder.m_types fb).
Proof.
  revert d fb. induction rs as [|r rs IH]; intros d fb.
  - simpl. rewrite app_nil_r. by destruct fb.
  - cbn [foldl]. unfold DoDifference.AssignGeometry_region at 2.
    rewrite call_points. cbn [DoDifference.m_points app].
    rewrite IH. unfold FeatureBuilder.AddPolygon. simpl.
    by rewrite <- app_assoc.
Qed.

Lemma coast_feature_eq (cell : TCell) (cellData : DoDifference.t) :
  coast_feature cell cellData
  = FeatureBuilder.MkFeature _
      (map (map (fun p => PointUToPointD (to_uint32 (fst p), to_uint32 (snd p))
                                         kPointCoordBits))
           (DoDifference.m_res cellData))
      [] (Some (ToInt64 cell (kHighLevel + 1))) true [GetCoastlineType].
Proof.
  unfold coast_feature, DoDifference.AssignGeometry.
  by rewrite AssignGeometry_regions.
Qed.

(** The feature has as many points as the difference it was built from. *)
Lemma coast_feature_points (cell : TCell) (cellData : DoDifference.t) :
  FeatureBuilder.GetPointsCount (coast_feature cell cellData)
  = DoDifference.GetPointsCount cellData.
Proof.
  rewrite coast_feature_eq.
  unfold FeatureBuilder.GetPointsCount, DoDifference.GetPointsCount. simpl.
  generalize 0. induction (DoDifference.m_res cellData) as [|r rs IH]; intros acc.
  - done.
  - simpl. rewrite IH. unfold m2.GetPointsCount. by rewrite length_map.
Qed.

Lemma coast_feature_polygons (cell : TCell) (cellData : DoDifference.t) :
  FeatureBuilder.GetPolygonsCount (coast_feature cell cellData)
  = Z.of_nat (length (DoDifference.m_res cellData)).
Proof.
  rewrite coast_feature_eq. unfold FeatureBuilder.GetPolygonsCount. simpl.
  by rewrite length_map.
Qed.

(** The [size_t] count of the points of a difference is the exact number
    of its points whenever that number fits. *)
Lemma GetPointsCount_exact (d : DoDifference.t) :
  DoDifference.GetPointsCount d
  = to_size_t (foldr (fun r n => Z.of_nat (length r) + n) 0 (DoDifference.m_res d)).
Proof.
  unfold DoDifference.GetPointsCount, m2.GetPointsCount.
  change 0 with (to_size_t 0) at 1. by rewrite size_t_sum.
Qed.

End FeatureFacts.

Section FeatureClaims.
Import RegionInCellSplitter Measure.
Context `{Collaborators} `{m2.Intersection}.

(** C8. For every index and every cell, the difference handed to the
    callback is defined and its result list is non-empty: its first element
    is the four-point envelope of the cell. The feature built from it has
    at least one polygon, and, the points of the difference being fewer
    than [2^64] (they are held in memory), at least three points; both
    checks of the callback pass and the feature is appended to the
    output. *)
Theorem C8_emitted_feature_not_empty (index : TIndex) (cell : TCell) :
  exists doDiff : DoDifference.t,
    difference index cell = Some doDiff /\
    head (DoDifference.m_res doDiff) = Some (rectR cell) /\
    DoDifference.m_res doDiff <> [] /\
    length (rectR cell) = 4%nat /\
    0 < FeatureBuilder.GetPolygonsCount (coast_feature cell doDiff) /\
    (foldr (fun r n => Z.of_nat (length r) + n) 0 (DoDifference.m_res doDiff)
       < 2 ^ 64 ->
     3 <= FeatureBuilder.GetPointsCount (coast_feature cell doDiff) /\
     forall fs : list FeatureBuilder.t,
       GetFeatures_lambda cell doDiff (Some fs)
       = Some (fs ++ [coast_feature cell doDiff])).
Proof.
  destruct (ProcessCell_spec (fun _ _ (u : unit) => u) index cell tt)
    as (d & Hd & Hfront & _).
  exists d. split; [done|]. split; [done|].
  pose proof (rectR_length cell) as Hlen.
  destruct (DoDifference.m_res d) as [|front rest] eqn:Hres; [done|].
  simpl in Hfront. simplify_eq.
  split; [done|]. split; [done|].
  assert (0 < FeatureBuilder.GetPolygonsCount (coast_feature cell d)) as Hpoly.
  { rewrite coast_feature_polygons, Hres. simpl. lia. }
  split; [done|]. intros Hfit.
  assert (3 <= FeatureBuilder.GetPointsCount (coast_feature cell d)) as Hpoints.
  { rewrite coast_feature_points, GetPointsCount_exact, Hres.
    simpl in Hfit |- *.
    assert (0 <= foldr (fun r n => Z.of_nat (length r) + n) 0 rest) as Hrest.
    { clear. induction rest as [|r rest IH]; simpl; lia. }
    rewrite to_size_t_small; lia. }
  split; [done|]. intros fs. unfold GetFeatures_lambda. simpl.
  apply Z.ltb_lt in Hpoly. apply Z.leb_le in Hpoints.
  by rewrite Hpoly, Hpoints.
Qed.

End FeatureClaims.

Section PointBudget.
Import RegionInCellSplitter Measure.
Context `{Collaborators} `{m2.Intersection}.
Variable index : TIndex.
Variable features : list FeatureBuilder.t.

(** Along every interleaving of [GetFeatures]: the cells in the list and in
    the hands of the threads have a level from [kStartLevel] to
    [kHighLevel], and the output, unless a check failed, is the initial
    vector followed by the features of accepted cells, each below
    [kHighLevel] only with fewer than [kMaxPoints] points. *)
Lemma budget_invariant (numThreads : nat) (schedule : list nat)
    (st : State (S := option (list FeatureBuilder.t))) :
  run GetFeatures_lambda index schedule
      (Process_start numThreads kStartLevel (Some features)) = Some st ->
  (forall c, c ∈ listTasks (m_ctx st) ->
             kStartLevel <= RectId.Level c <= kHighLevel) /\
  (forall j c, threads st !! j = Some (Working c) ->
               kStartLevel <= RectId.Level c <= kHighLevel) /\
  (forall fs, output (m_ctx st) = Some fs ->
     exists emitted : list (TCell * DoDifference.t),
       fs = features ++ map (fun e => coast_feature (fst e) (snd e)) emitted /\
       Forall (fun e =>
                 difference index (fst e) = Some (snd e) /\
                 kStartLevel <= RectId.Level (fst e) <= kHighLevel /\
                 (RectId.Level (fst e) < kHighLevel ->
                  DoDifference.GetPointsCount (snd e) < kMaxPoints)) emitted).
Proof.
  apply (run_invariant GetFeatures_lambda index (fun st =>
    (forall c, c ∈ listTasks (m_ctx st) ->
               kStartLevel <= RectId.Level c <= kHighLevel) /\
    (forall j c, threads st !! j = Some (Working c) ->
                 kStartLevel <= RectId.Level c <= kHighLevel) /\
    (forall fs, output (m_ctx st) = Some fs ->
       exists emitted : list (TCell * DoDifference.t),
         fs = features ++ map (fun e => coast_feature (fst e) (snd e)) emitted /\
         Forall (fun e =>
                   difference index (fst e) = Some (snd e) /\
                   kStartLevel <= RectId.Level (fst e) <= kHighLevel /\
                   (RectId.Level (fst e) < kHighLevel ->
                    DoDifference.GetPointsCount (snd e) < kMaxPoints)) emitted))).
  - intros i s s' (Htasks & Hthreads & Hout) Hstep.
    destruct (thread_step_cases _ index i s s' Hstep)
      as [(c & rest & Hi & Hl & ->)|[(Hi & Hl & Hw & ->)
         |(c & d & Hi & Hd & _ & ->)]]; simpl.
    + split; [|split; [|done]].
      * intros c' Hc'. apply Htasks. rewrite Hl. by right.
      * intros j c' Hj. destruct (decide (i = j)) as [->|Hne].
        -- rewrite list_lookup_insert_eq in Hj by (by eapply lookup_lt_Some).
           simplify_eq. apply Htasks. rewrite Hl. by left.
        -- rewrite list_lookup_insert_ne in Hj by done. by eapply Hthreads.
    + split; [done|]. split; [|done].
      intros j c' Hj. destruct (decide (i = j)) as [->|Hne].
      * rewrite list_lookup_insert_eq in Hj by (by eapply lookup_lt_Some). done.
      * rewrite list_lookup_insert_ne in Hj by done. by eapply Hthreads.
    + pose proof (Hthreads i c Hi) as Hc.
      assert (forall j c', <[i := Waiting]> (threads s) !! j = Some (Working c') ->
                kStartLevel <= RectId.Level c' <= kHighLevel) as Hthreads'.
      { intros j c' Hj. destruct (decide (i = j)) as [->|Hne].
        - rewrite list_lookup_insert_eq in Hj by (by eapply lookup_lt_Some). done.
        - rewrite list_lookup_insert_ne in Hj by done. by eapply Hthreads. }
      destruct (RectId.Level c <? kHighLevel) eqn:Hlevel; simpl.
      * apply Z.ltb_lt in Hlevel.
        destruct (kMaxPoints <=? DoDifference.GetPointsCount d) eqn:Hcount; simpl.
        -- split; [|done]. intros c' Hc'.
           apply elem_of_app in Hc' as [Hc'|Hc']; [by apply Htasks|].
           rewrite children_eq in Hc'.
           repeat (apply elem_of_cons in Hc' as [->|Hc'];
                   [unfold RectId.Child, RectId.Level in *; simpl; lia|]).
           by apply elem_of_nil in Hc'.
        -- split; [done|]. split; [done|]. intros fs Hfs.
           unfold GetFeatures_lambda in Hfs.
           destruct (output (m_ctx s)) as [fs0|] eqn:Hfs0; [|done]. simpl in Hfs.
           match type of Hfs with
           | context [if ?b then _ else _] => destruct b; [|done]
           end. simplify_eq.
           destruct (Hout fs0 eq_refl) as (emitted & -> & Hall).
           exists (emitted ++ [(c, d)]). rewrite map_app, app_assoc. split; [done|].
           apply Forall_app. split; [done|]. apply Forall_singleton. simpl.
           apply Z.leb_gt in Hcount. done.
      * split; [done|]. split; [done|]. intros fs Hfs.
        unfold GetFeatures_lambda in Hfs.
        destruct (output (m_ctx s)) as [fs0|] eqn:Hfs0; [|done]. simpl in Hfs.
        match type of Hfs with
           | context [if ?b then _ else _] => destruct b; [|done]
           end. simplify_eq.
        destruct (Hout fs0 eq_refl) as (emitted & -> & Hall).
        exists (emitted ++ [(c, d)]). rewrite map_app, app_assoc. split; [done|].
        apply Forall_app. split; [done|]. apply Forall_singleton. simpl.
        apply Z.ltb_ge in Hlevel. split; [done|]. split; [done|]. lia.
  - unfold Process_start. cbn [m_ctx listTasks threads output]. split; [|split].
    + intros c Hc. apply list_elem_of_In, in_map_iff in Hc as (i & <- & _).
      unfold RectId.Level, kStartLevel, kHighLevel. simpl. lia.
    + intros j c Hj. apply lookup_replicate in Hj as [? _]. done.
    + intros fs Hfs. simplify_eq. exists []. simpl.
      by rewrite app_nil_r.
Qed.

End PointBudget.

Section PointBudgetClaim.
Import RegionInCellSplitter Measure.
Context `{Collaborators} `{m2.Intersection}.

(** C5. Whatever the number of threads and their interleaving, the features
    [GetFeatures] appends to the vector are, in order, the features of
    accepted cells and their differences. Each has the points of its
    difference and carries the tag of its cell; the level of the cell is
    from [kStartLevel] to [kHighLevel]. If the level is strictly below
    [kHighLevel] (10) the feature has at most [kMaxPoints] (20000) points
    (indeed fewer); a feature with more than [kMaxPoints] points belongs to
    a cell of level [kHighLevel]. *)
Theorem C5_point_budget (g : CoastlineFeaturesGenerator) (maxThreads : nat)
    (schedule : list nat) (features fs : list FeatureBuilder.t) :
  GetFeatures g maxThreads schedule features = Some fs ->
  exists emitted : list (TCell * DoDifference.t),
    fs = features ++ map (fun e => coast_feature (fst e) (snd e)) emitted /\
    Forall (fun e =>
              let fb := coast_feature (fst e) (snd e) in
              difference (m_tree g) (fst e) = Some (snd e) /\
              FeatureBuilder.m_coastCell fb
              = Some (ToInt64 (fst e) (kHighLevel + 1)) /\
              FeatureBuilder.GetPointsCount fb
              = DoDifference.GetPointsCount (snd e) /\
              kStartLevel <= RectId.Level (fst e) <= kHighLevel /\
              (RectId.Level (fst e) < kHighLevel ->
               FeatureBuilder.GetPointsCount fb <= kMaxPoints /\
               FeatureBuilder.GetPointsCount fb < kMaxPoints) /\
              (kMaxPoints < FeatureBuilder.GetPointsCount fb ->
               RectId.Level (fst e) = kHighLevel)) emitted.
Proof.
  unfold GetFeatures, Process. intros Hget.
  destruct (0 <? maxThreads)%nat; [|done].
  destruct (run _ _ _ _) as [st|] eqn:Hrun; [|done]. simpl in Hget.
  destruct (joined st); [|done]. simpl in Hget.
  destruct (budget_invariant _ _ _ _ _ Hrun) as (_ & _ & Hout).
  destruct (Hout fs Hget) as (emitted & -> & Hall).
  exists emitted. split; [done|].
  eapply Forall_impl; [exact Hall|].
  intros [c d] (Hd & Hlevel & Hbudget). cbv zeta. cbn [fst snd] in *.
  rewrite coast_feature_points. split; [done|].
  split; [by rewrite coast_feature_eq|]. split; [done|]. split; [done|].
  split; [intros Hlt; specialize (Hbudget Hlt); lia|].
  intros Hmore. destruct (decide (RectId.Level c < kHighLevel)) as [Hlt|Hge]; [|lia].
  specialize (Hbudget Hlt). lia.
Qed.

End PointBudgetClaim.

(** ** The empty planet *)

Section EmptyPlanet.
Import RegionInCellSplitter Measure.
Context `{Collaborators} `{m2.Intersection}.

Lemma working_cells_cons (w : Worker) (ws : list Worker) :
  working_cells (w :: ws) = working_cells [w] ++ working_cells ws.
Proof. unfold working_cells. simpl. by rewrite app_nil_r. Qed.

Lemma working_cells_insert (ws : list Worker) (i : nat) (w w' : Worker) :
  ws !! i = Some w ->
  working_cells (<[i := w']> ws) ++ working_cells [w]
  ≡ₚ working_cells ws ++ working_cells [w'].
Proof.
  revert i. induction ws as [|w0 ws IH]; intros [|i] Hi; [done|done| |].
  - injection Hi as ->. cbn [list_insert insert].
    rewrite (working_cells_cons w' ws), (working_cells_cons w ws).
    rewrite (Permutation_app_comm (working_cells [w] ++ working_cells ws)).
    rewrite <- app_assoc. apply Permutation_app_head, Permutation_app_comm.
  - cbn [list_insert insert].
    rewrite (working_cells_cons w0 ws), (working_cells_cons w0 (<[i := w']> ws)).
    rewrite <- !app_assoc. apply Permutation_app_head. by apply IH.
Qed.

Lemma working_cells_replicate_waiting (n : nat) :
  working_cells (replicate n Waiting) = [].
Proof. induction n as [|n IH]; [done|]. simpl. exact IH. Qed.

Lemma joined_working_cells (ws : list Worker) :
  forallb (fun w => match w with Exited => true | _ => false end) ws = true ->
  working_cells ws = [].
Proof.
  induction ws as [|w ws IH]; simpl; [done|].
  destruct w; simpl; done.
Qed.

(** With nothing in the tree the difference of a cell is its envelope. *)
Lemma difference_empty (cell : TCell) :
  difference [] cell
  = Some (DoDifference.Mk (m2.GetRect (rectR cell)) [rectR cell] []).
Proof. by rewrite difference_spec. Qed.

Lemma envelope_points (cell : TCell) :
  DoDifference.GetPointsCount
    (DoDifference.Mk (m2.GetRect (rectR cell)) [rectR cell] []) = 4.
Proof.
  unfold DoDifference.GetPointsCount, m2.GetPointsCount. simpl.
  by rewrite rectR_length.
Qed.

(** The feature of a cell on the empty planet: one polygon, the four
    corners of the cell quantized and converted back. *)
Lemma ocean_feature (cell : TCell) :
  coast_feature cell (DoDifference.Mk (m2.GetRect (rectR cell)) [rectR cell] [])
  = let '(minX, minY, maxX, maxY) := GetCellBounds cell in
    let corner := fun p : PointD =>
      PointUToPointD (to_uint32 (fst (D2I p)), to_uint32 (snd (D2I p)))
                     kPointCoordBits in
    FeatureBuilder.MkFeature _
      [[corner (minX, minY); corner (minX, maxY);
        corner (maxX, maxY); corner (maxX, minY)]]
      [] (Some (ToInt64 cell (kHighLevel + 1))) true [GetCoastlineType].
Proof.
  rewrite coast_feature_eq. simpl. rewrite rectR_eq.
  by destruct (GetCellBounds cell) as [[[? ?] ?] ?].
Qed.

(** On the empty planet every interleaving only moves cells from the list
    to the threads and from the threads, as features, to the output. *)
Lemma empty_planet_invariant (numThreads : nat) (schedule : list nat)
    (st : State (S := option (list FeatureBuilder.t))) :
  run GetFeatures_lambda [] schedule
      (Process_start numThreads kStartLevel (Some [])) = Some st ->
  exists emitted : list TCell,
    output (m_ctx st)
    = Some (map (fun cell =>
                   coast_feature cell
                     (DoDifference.Mk (m2.GetRect (rectR cell)) [rectR cell] []))
                emitted) /\
    emitted ++ working_cells (threads st) ++ listTasks (m_ctx st)
    ≡ₚ map (fun i => RectId.FromBitsAndLevel i kStartLevel)
           (seqZ 0 (RectId.TotalCellsOnLevel kStartLevel)).
Proof.
  apply (run_invariant GetFeatures_lambda [] (fun st =>
    exists emitted : list TCell,
      output (m_ctx st)
      = Some (map (fun cell =>
                     coast_feature cell
                       (DoDifference.Mk (m2.GetRect (rectR cell)) [rectR cell] []))
                  emitted) /\
      emitted ++ working_cells (threads st) ++ listTasks (m_ctx st)
      ≡ₚ map (fun i => RectId.FromBitsAndLevel i kStartLevel)
             (seqZ 0 (RectId.TotalCellsOnLevel kStartLevel)))).
  - intros i s s' (emitted & Hout & Hperm) Hstep.
    destruct (thread_step_cases _ [] i s s' Hstep)
      as [(c & rest & Hi & Hl & ->)|[(Hi & Hl & Hw & ->)
         |(c & d & Hi & Hd & _ & ->)]].
    + pose proof (working_cells_insert _ _ _ (Working c) Hi) as Hins.
      simpl in Hins. rewrite app_nil_r in Hins.
      exists emitted. cbn [m_ctx listTasks threads output]. split; [done|].
      rewrite Hins, <- Hperm, Hl, <- !app_assoc. done.
    + pose proof (working_cells_insert _ _ _ Exited Hi) as Hins.
      simpl in Hins. rewrite !app_nil_r in Hins.
      exists emitted. cbn [m_ctx listTasks threads output]. split; [done|].
      by rewrite Hins.
    + pose proof (working_cells_insert _ _ _ Waiting Hi) as Hins.
      simpl in Hins. rewrite app_nil_r in Hins.
      rewrite difference_empty in Hd. simplify_eq.
      rewrite envelope_points.
      replace (kMaxPoints <=? 4) with false by done.
      rewrite andb_false_r. cbn [m_ctx listTasks threads output].
      exists (emitted ++ [c]). split.
      * rewrite Hout. unfold GetFeatures_lambda. cbn [mbind option_bind].
        rewrite coast_feature_polygons, coast_feature_points, envelope_points.
        simpl. by rewrite map_app.
      * rewrite <- Hperm, <- Hins, <- !app_assoc.
        apply Permutation_app_head. simpl.
        by rewrite Permutation_middle.
  - exists []. split; [done|].
    unfold Process_start. cbn [m_ctx listTasks threads app].
    by rewrite working_cells_replicate_waiting.
Qed.

End EmptyPlanet.

Section EmptyPlanetClaim.
Import RegionInCellSplitter Measure.
Context `{Collaborators} `{m2.Intersection}.

(** C6. When [Process] is never called (and a merger that was fed nothing
    emits nothing), [Finish] returns [true] and leaves the tree empty.
    [GetFeatures] then, on any number of threads (at least one) and for
    every interleaving that lets them all finish, and there is one,
    produces exactly [4^4 = 256] features: up to their order, one for
    each cell of level [kStartLevel], holding a single polygon whose points
    are the four quantized corners of the cell, [(minX, minY)],
    [(minX, maxY)], [(maxX, maxY)], [(maxX, minY)]. *)
Theorem C6_empty_planet (maxThreads : nat) :
  DoMerge [] = [] ->
  (0 < maxThreads)%nat ->
  Z.of_nat maxThreads < 2 ^ 64 ->
  let g := CoastlineFeaturesGenerator_ctor in
  let seeds := map (fun i => RectId.FromBitsAndLevel i kStartLevel)
                   (seqZ 0 (RectId.TotalCellsOnLevel kStartLevel)) in
  Finish g = Some (true, g, []) /\
  m_tree g = [] /\
  length seeds = 256%nat /\
  (exists schedule fs, GetFeatures g maxThreads schedule [] = Some fs) /\
  (forall schedule fs,
     GetFeatures g maxThreads schedule [] = Some fs ->
     length fs = 256%nat /\
     fs ≡ₚ map (fun cell =>
                  let '(minX, minY, maxX, maxY) := GetCellBounds cell in
                  let corner := fun p : PointD =>
                    PointUToPointD (to_uint32 (fst (D2I p)), to_uint32 (snd (D2I p)))
                                   kPointCoordBits in
                  FeatureBuilder.MkFeature _
                    [[corner (minX, minY); corner (minX, maxY);
                      corner (maxX, maxY); corner (maxX, minY)]]
                    [] (Some (ToInt64 cell (kHighLevel + 1))) true
                    [GetCoastlineType]) seeds).
Proof.
  intros Hmerge Hpos Hlt g seeds.
  assert (length seeds = 256%nat) as Hseeds by done.
  set (start := Process_start (S := option (list FeatureBuilder.t))
                  maxThreads kStartLevel (Some [])).
  assert (Z.of_nat (length (threads start)) < 2 ^ 64) as Hlen.
  { unfold start, Process_start. cbn [threads]. by rewrite length_replicate. }
  assert (forall schedule st,
            run GetFeatures_lambda [] schedule start = Some st ->
            joined st = true ->
            exists emitted,
              output (m_ctx st)
              = Some (map (fun cell =>
                             coast_feature cell
                               (DoDifference.Mk (m2.GetRect (rectR cell))
                                                [rectR cell] [])) emitted) /\
              emitted ≡ₚ seeds) as Hfinal.
  { intros schedule st Hrun Hjoined.
    destruct (empty_planet_invariant _ _ _ Hrun) as (emitted & Hout & Hperm).
    destruct (run_consistent _ _ _ _ _ Hlen
                (Process_start_consistent _ _ _) Hrun) as [[_ Hexit] Hl].
    exists emitted. split; [done|].
    unfold joined in Hjoined.
    rewrite (joined_working_cells _ Hjoined) in Hperm.
    destruct Hexit as [Hnil _].
    { destruct (threads st) as [|w ws] eqn:E.
      - unfold start, Process_start in Hl. cbn [threads length] in Hl.
        rewrite length_replicate in Hl. lia.
      - exists 0%nat. simpl in Hjoined |- *. by destruct w. }
    rewrite Hnil, app_nil_r in Hperm. exact Hperm. }
  split; [|split; [done|split; [done|split]]].
  - unfold Finish, DoMerge_emit, g. simpl. rewrite Hmerge. done.
  - destruct (run_to_terminal GetFeatures_lambda [] start)
      as (schedule & st & Hrun & Hterm).
    destruct (run_consistent _ _ _ _ _ Hlen
                (Process_start_consistent _ _ _) Hrun) as [Hc _].
    destruct (terminal_joined _ _ _ Hc Hterm) as [Hjoined _].
    destruct (Hfinal schedule st Hrun Hjoined) as (emitted & Hout & _).
    exists schedule. eexists.
    unfold GetFeatures, Process, g. cbn [m_tree CoastlineFeaturesGenerator_ctor].
    replace (0 <? maxThreads)%nat with true by (symmetry; apply Nat.ltb_lt; lia).
    fold start. rewrite Hrun. simpl. rewrite Hjoined. simpl. exact Hout.
  - intros schedule fs Hget.
    unfold GetFeatures, Process, g in Hget.
    cbn [m_tree CoastlineFeaturesGenerator_ctor] in Hget.
    destruct (0 <? maxThreads)%nat; [|done]. fold start in Hget.
    destruct (run _ _ _ start) as [st|] eqn:Hrun; [|done]. simpl in Hget.
    destruct (joined st) eqn:Hjoined; [|done]. simpl in Hget.
    destruct (Hfinal schedule st Hrun Hjoined) as (emitted & Hout & Hperm).
    rewrite Hout in Hget. injection Hget as <-.
    split.
    + rewrite length_map, (Permutation_length Hperm). exact Hseeds.
    + etransitivity; [apply Permutation_map, Hperm|].
      erewrite map_ext; [reflexivity|]. intros cell. apply ocean_feature.
Qed.

End EmptyPlanetClaim.

(* ================================================================== *)
(** * Further properties of the generator *)

Section GeneratorFacts.
Context `{Collaborators}.

(** X1. [Process] never fails, and a stream of builders is split in two:
    the open ones are handed to the merger, in order, and change nothing
    in the tree; the closed ones leave the merger alone and add, in order,
    one region for each of their non-empty polygons after what the tree
    already holds. *)
Theorem Process_all_routes_builders
    (g : CoastlineFeaturesGenerator) (fbs : list FeatureBuilder.t) :
  Process_all g fbs
  = Some (MkGenerator _
            (m_merger g ++ filter (fun fb => IsGeometryClosed fb = false) fbs)
            (m_tree g ++
             flat_map (fun polygon =>
               match polygon with
               | [] => []
               | _ :: _ => [(m2.GetRect (map D2I (tail polygon)),
                             map D2I (tail polygon))]
               end)
               (flat_map FeatureBuilder.m_polygons
                  (filter (fun fb => IsGeometryClosed fb = true) fbs)))).
Proof.
  unfold Process_all. revert g.
  induction fbs as [|fb fbs IH]; intros g.
  - simpl. rewrite !app_nil_r. by destruct g.
  - cbn [foldl mbind option_bind]. unfold Process at 2, AddRegionToTree.
    rewrite !filter_cons.
    destruct (IsGeometryClosed fb) eqn:Hfb.
    + rewrite decide_False by done. rewrite decide_True by done.
      rewrite IH. cbn [m_merger m_tree flat_map].
      unfold FeatureBuilder.ForEachPolygon.
      rewrite AddRegionToTree_polygons_spec, flat_map_app, <- app_assoc. done.
    + rewrite decide_True by done. rewrite decide_False by done.
      rewrite IH. cbn [m_merger m_tree]. by rewrite <- app_assoc.
Qed.

(** The rectangle of a region only widens when points are added, and
    holds every point added. *)
Lemma foldl_Add_bounds (rgn : RegionT) (acc : RectT) :
  let r := foldl m2.Add acc rgn in
  (m2.minX r <= m2.minX acc /\ m2.minY r <= m2.minY acc /\
   m2.maxX acc <= m2.maxX r /\ m2.maxY acc <= m2.maxY r) /\
  forall p, p ∈ rgn ->
    m2.minX r <= fst p <= m2.maxX r /\ m2.minY r <= snd p <= m2.maxY r.
Proof.
  revert acc. induction rgn as [|q rgn IH]; intros acc; simpl.
  - split; [lia|]. intros p Hp. by apply elem_of_nil in Hp.
  - destruct (IH (m2.Add acc q)) as [Hmono Hin]. simpl in Hmono.
    split; [lia|]. intros p Hp.
    apply elem_of_cons in Hp as [->|Hp]; [lia|by apply Hin].
Qed.

Lemma to_int32_range (z : Z) : - 2 ^ 31 <= to_int32 z < 2 ^ 31.
Proof.
  unfold to_int32. pose proof (Z.mod_pos_bound (z + 2 ^ 31) (2 ^ 32)). lia.
Qed.

(** One polygon keeps the tree well keyed. *)
Lemma AddRegionToTree_polygon_keyed (polygon : list PointD) (tree : m4.Tree) :
  Forall (fun e =>
            fst e = GetLimitRect (snd e) /\
            forall p, p ∈ snd e ->
              (m2.minX (fst e) <= fst p <= m2.maxX (fst e) /\
               m2.minY (fst e) <= snd p <= m2.maxY (fst e)) /\
              (- 2 ^ 31 <= fst p < 2 ^ 31 /\ - 2 ^ 31 <= snd p < 2 ^ 31)) tree ->
  Forall (fun e =>
            fst e = GetLimitRect (snd e) /\
            forall p, p ∈ snd e ->
              (m2.minX (fst e) <= fst p <= m2.maxX (fst e) /\
               m2.minY (fst e) <= snd p <= m2.maxY (fst e)) /\
              (- 2 ^ 31 <= fst p < 2 ^ 31 /\ - 2 ^ 31 <= snd p < 2 ^ 31))
         (AddRegionToTree_polygon polygon tree).
Proof.
  intros Htree. rewrite AddRegionToTree_polygon_spec.
  apply Forall_app. split; [done|].
  destruct polygon as [|p0 rest]; [done|].
  apply Forall_singleton. cbn [fst snd tail].
  split; [by rewrite GetLimitRect_GetRect|].
  intros p Hp. split.
  - by apply (foldl_Add_bounds (map D2I rest) m2.MakeEmpty).
  - apply list_elem_of_In, in_map_iff in Hp as (q & <- & _).
    unfold D2I. simpl. split; apply to_int32_range.
Qed.

Lemma AddRegionToTree_polygons_keyed (polygons : list (list PointD)) (tree : m4.Tree) :
  Forall (fun e =>
            fst e = GetLimitRect (snd e) /\
            forall p, p ∈ snd e ->
              (m2.minX (fst e) <= fst p <= m2.maxX (fst e) /\
               m2.minY (fst e) <= snd p <= m2.maxY (fst e)) /\
              (- 2 ^ 31 <= fst p < 2 ^ 31 /\ - 2 ^ 31 <= snd p < 2 ^ 31)) tree ->
  Forall (fun e =>
            fst e = GetLimitRect (snd e) /\
            forall p, p ∈ snd e ->
              (m2.minX (fst e) <= fst p <= m2.maxX (fst e) /\
               m2.minY (fst e) <= snd p <= m2.maxY (fst e)) /\
              (- 2 ^ 31 <= fst p < 2 ^ 31 /\ - 2 ^ 31 <= snd p < 2 ^ 31))
         (foldl (fun acc polygon => AddRegionToTree_polygon polygon acc)
                tree polygons).
Proof.
  revert tree. induction polygons as [|polygon polygons IH]; intros tree Htree.
  - done.
  - simpl. by apply IH, AddRegionToTree_polygon_keyed.
Qed.

End GeneratorFacts.

Section TreeKeys.
Context `{Collaborators}.

Lemma Process_keyed (g g' : CoastlineFeaturesGenerator) (fb : FeatureBuilder.t) :
  Process g fb = Some g' ->
  Forall (fun e =>
            fst e = GetLimitRect (snd e) /\
            forall p, p ∈ snd e ->
              (m2.minX (fst e) <= fst p <= m2.maxX (fst e) /\
               m2.minY (fst e) <= snd p <= m2.maxY (fst e)) /\
              (- 2 ^ 31 <= fst p < 2 ^ 31 /\ - 2 ^ 31 <= snd p < 2 ^ 31))
         (m_tree g) ->
  Forall (fun e =>
            fst e = GetLimitRect (snd e) /\
            forall p, p ∈ snd e ->
              (m2.minX (fst e) <= fst p <= m2.maxX (fst e) /\
               m2.minY (fst e) <= snd p <= m2.maxY (fst e)) /\
              (- 2 ^ 31 <= fst p < 2 ^ 31 /\ - 2 ^ 31 <= snd p < 2 ^ 31))
         (m_tree g').
Proof.
  unfold Process, AddRegionToTree. intros Hprocess Htree.
  destruct (IsGeometryClosed fb); simplify_eq/=; [|done].
  by apply AddRegionToTree_polygons_keyed.
Qed.

(** X2. Whatever builders are given to [Process], and after [Finish] as
    well, every entry of the spatial tree is keyed by the limit rectangle
    of its own region; every point of the region lies inside that
    rectangle, and its coordinates are [int32_t] values. *)
Theorem tree_entries_keyed_by_limit_rect (fbs : list FeatureBuilder.t) :
  exists g : CoastlineFeaturesGenerator,
    Process_all CoastlineFeaturesGenerator_ctor fbs = Some g /\
    forall tree : m4.Tree,
      (tree = m_tree g \/
       exists b g' log, Finish g = Some (b, g', log) /\ tree = m_tree g') ->
      Forall (fun e =>
                fst e = GetLimitRect (snd e) /\
                forall p, p ∈ snd e ->
                  (m2.minX (fst e) <= fst p <= m2.maxX (fst e) /\
                   m2.minY (fst e) <= snd p <= m2.maxY (fst e)) /\
                  (- 2 ^ 31 <= fst p < 2 ^ 31 /\ - 2 ^ 31 <= snd p < 2 ^ 31))
             tree.
Proof.
  assert (forall g0 : CoastlineFeaturesGenerator,
            Forall (fun e =>
                      fst e = GetLimitRect (snd e) /\
                      forall p, p ∈ snd e ->
                        (m2.minX (fst e) <= fst p <= m2.maxX (fst e) /\
                         m2.minY (fst e) <= snd p <= m2.maxY (fst e)) /\
                        (- 2 ^ 31 <= fst p < 2 ^ 31 /\ - 2 ^ 31 <= snd p < 2 ^ 31))
                   (m_tree g0) ->
            exists g, Process_all g0 fbs = Some g /\
              Forall (fun e =>
                        fst e = GetLimitRect (snd e) /\
                        forall p, p ∈ snd e ->
                          (m2.minX (fst e) <= fst p <= m2.maxX (fst e) /\
                           m2.minY (fst e) <= snd p <= m2.maxY (fst e)) /\
                          (- 2 ^ 31 <= fst p < 2 ^ 31 /\ - 2 ^ 31 <= snd p < 2 ^ 31))
                     (m_tree g)) as Hfeed.
  { unfold Process_all. induction fbs as [|fb fbs' IH]; intros g0 Hg0.
    - exists g0. done.
    - cbn [foldl mbind option_bind].
      destruct (Process g0 fb) as [g1|] eqn:Hg1.
      + apply IH. by eapply Process_keyed.
      + unfold Process, AddRegionToTree in Hg1. by destruct (IsGeometryClosed fb). }
  destruct (Hfeed CoastlineFeaturesGenerator_ctor) as (g & Hg & Hkeyed);
    [by apply Forall_nil|].
  exists g. split; [done|].
  intros tree [->|(b & g' & log & Hfinish & ->)]; [done|].
  unfold Finish, DoMerge_emit in Hfinish.
  destruct (emit_chains (DoMerge (m_merger g)) (DoAddToTree.ctor g) [])
    as (tree & points & Hrun & Htree); [simpl; lia|].
  rewrite Hrun in Hfinish. simpl in Hfinish.
  assert (m_tree g' = tree) as ->.
  { destruct (DoAddToTree.HasNotMergedCoasts _); by simplify_eq/=. }
  rewrite Htree. simpl. clear Hrun Htree Hfinish Hg.
  revert Hkeyed. generalize (m_tree g).
  induction (filter _ (DoMerge (m_merger g))) as [|fb chains IH]; intros t Ht.
  - done.
  - simpl. apply IH. unfold FeatureBuilder.ForEachPolygon.
    by apply AddRegionToTree_polygons_keyed.
Qed.

End TreeKeys.

Section FinishTotals.
Context `{Collaborators}.

(** The points [DoAddToTree] has counted after a flush. *)
Lemma emit_points (chains : list FeatureBuilder.t) (d d' : DoAddToTree.t)
    (log log' : list LogMessage) :
  0 <= DoAddToTree.m_totalNotMergedCoastsPoints d < 2 ^ 64 ->
  foldl (fun acc fb => acc ≫= fun s => DoAddToTree.call s fb) (Some (d, log)) chains
  = Some (d', log') ->
  DoAddToTree.m_totalNotMergedCoastsPoints d'
  = to_size_t (DoAddToTree.m_totalNotMergedCoastsPoints d
               + foldr (fun fb n => FeatureBuilder.GetPointsCount fb + n) 0
                       (filter (fun fb => IsGeometryClosed fb = false) chains)).
Proof.
  revert d log. induction chains as [|fb chains IH]; intros d log Hrange Hrun.
  - simpl in Hrun. simplify_eq. simpl. by rewrite Z.add_0_r, to_size_t_small.
  - cbn [foldl mbind option_bind] in Hrun. rewrite filter_cons.
    destruct (IsGeometryClosed fb) eqn:Hfb.
    + rewrite call_closed in Hrun by done. rewrite decide_False by done.
      by apply IH in Hrun.
    + rewrite call_open in Hrun by done. rewrite decide_True by done.
      apply IH in Hrun; [|simpl; apply to_size_t_range].
      rewrite Hrun. simpl. rewrite to_size_t_add_l. f_equal. lia.
Qed.

(** X3. The totals of [Finish], with the wrap-around of their [size_t]
    counters: the flag is [true] exactly when the number of open chains
    is [0] modulo [2^64]; otherwise the log ends with that number and with
    the sum of the point counts of the open chains, both modulo [2^64],
    after one line for each open chain. *)
Theorem Finish_totals (g : CoastlineFeaturesGenerator) :
  let opens := filter (fun fb => IsGeometryClosed fb = false)
                      (DoMerge (m_merger g)) in
  let count := to_size_t (Z.of_nat (length opens)) in
  let points := to_size_t (foldr (fun fb n => FeatureBuilder.GetPointsCount fb + n)
                                 0 opens) in
  exists (g' : CoastlineFeaturesGenerator) (lines : list LogMessage),
    length lines = length opens /\
    Finish g
    = Some (count =? 0, g',
            lines ++ (if count =? 0 then []
                      else [TotalNotMergedCoasts count;
                            TotalNotMergedPoints points])).
Proof.
  intros opens count points.
  destruct (emit_chains (DoMerge (m_merger g)) (DoAddToTree.ctor g) [])
    as (tree & pts & Hrun & _); [simpl; lia|].
  assert (0 <= DoAddToTree.m_totalNotMergedCoastsPoints (DoAddToTree.ctor g) < 2 ^ 64)
    as Hzero by (simpl; lia).
  pose proof (emit_points _ _ _ _ _ Hzero Hrun) as Hpts.
  simpl in Hrun, Hpts. rewrite !Z.add_0_l in Hrun, Hpts.
  fold opens in Hrun, Hpts. fold count in Hrun. fold points in Hpts. subst pts.
  unfold Finish, DoMerge_emit. rewrite Hrun. simpl.
  unfold DoAddToTree.HasNotMergedCoasts, DoAddToTree.GetNotMergedCoastsCount,
    DoAddToTree.GetNotMergedCoastsPoints. simpl.
  exists (MkGenerator _ (m_merger g) tree). eexists (map _ opens).
  split; [by rewrite length_map|].
  destruct (count =? 0); simpl; [by rewrite app_nil_r|done].
Qed.

End FinishTotals.

Section Casts.
Context `{Quantizer}.

Lemma to_uint32_to_int32 (u : Z) :
  0 <= u < 2 ^ 32 -> to_uint32 (to_int32 u) = u.
Proof.
  intros Hu. unfold to_uint32, to_int32.
  destruct (decide (u < 2 ^ 31)) as [Hlow|Hhigh].
  - rewrite (Z.mod_small (u + 2 ^ 31)) by lia.
    replace (u + 2 ^ 31 - 2 ^ 31) with u by lia. apply Z.mod_small. lia.
  - replace (u + 2 ^ 31) with (u - 2 ^ 31 + 1 * 2 ^ 32) by lia.
    rewrite Z_mod_plus_full, (Z.mod_small (u - 2 ^ 31)) by lia.
    replace (u - 2 ^ 31 - 2 ^ 31) with (u + (-1) * 2 ^ 32) by lia.
    rewrite Z_mod_plus_full. apply Z.mod_small. lia.
Qed.

(** X4. The casts of [D2I] and of [DoDifference::operator()(PointT)] undo
    each other on every [uint32_t] value: the point pushed for [D2I p] is
    the quantizer's [PointUToPointD] of its [PointDToPointU p]. The
    coordinates of [D2I p] are always [int32_t] values, and they are the
    quantized coordinates themselves as long as these are below [2^31]. *)
Theorem D2I_casts_round_trip (p : PointD) (d : DoDifference.t) :
  let pu := PointDToPointU p kPointCoordBits in
  0 <= fst pu < 2 ^ 32 ->
  0 <= snd pu < 2 ^ 32 ->
  DoDifference.m_points (DoDifference.call_point d (D2I p))
  = DoDifference.m_points d ++ [PointUToPointD pu kPointCoordBits] /\
  (- 2 ^ 31 <= fst (D2I p) < 2 ^ 31 /\ - 2 ^ 31 <= snd (D2I p) < 2 ^ 31) /\
  (fst pu < 2 ^ 31 -> fst (D2I p) = fst pu) /\
  (snd pu < 2 ^ 31 -> snd (D2I p) = snd pu) /\
  (2 ^ 31 <= fst pu -> fst (D2I p) = fst pu - 2 ^ 32).
Proof.
  intros pu Hx Hy. unfold DoDifference.call_point, D2I. fold pu. simpl.
  rewrite !to_uint32_to_int32 by done.
  split; [by destruct pu|].
  split; [split; apply to_int32_range|].
  unfold to_int32. split; [|split].
  - intros Hlow. rewrite Z.mod_small; lia.
  - intros Hlow. rewrite Z.mod_small; lia.
  - intros Hhigh.
    replace (fst pu + 2 ^ 31) with (fst pu - 2 ^ 31 + 1 * 2 ^ 32) by lia.
    rewrite Z_mod_plus_full, Z.mod_small; lia.
Qed.

End Casts.

Section Geometry.
Context `{Collaborators} `{m2.Intersection}.

(** The accumulator after the loop of [AssignGeometry]. *)
Lemma AssignGeometry_accumulator (rs : list RegionT) (d : DoDifference.t)
    (fb : FeatureBuilder.t) :
  fst (foldl DoDifference.AssignGeometry_region (d, fb) rs)
  = DoDifference.Mk (DoDifference.m_src d) (DoDifference.m_res d)
      (match last rs with
       | Some r => map (fun p => PointUToPointD (to_uint32 (fst p), to_uint32 (snd p))
                                                kPointCoordBits) r
       | None => DoDifference.m_points d
       end).
Proof.
  revert d fb. induction rs as [|r rs IH]; intros d fb.
  - simpl. by destruct d.
  - cbn [foldl]. unfold DoDifference.AssignGeometry_region at 2.
    rewrite call_points, IH. cbn [DoDifference.m_src DoDifference.m_res
      DoDifference.m_points app].
    destruct rs as [|r' rs]; [reflexivity|].
    change (last (r :: r' :: rs)) with (last (r' :: rs)).
    destruct (last (r' :: rs)) eqn:Hlast; [done|]. by apply last_None in Hlast.
Qed.

(** X5. [AssignGeometry] adds to the builder one polygon for each region
    of the result, in order and after the polygons it already has, with
    one point for each point of the region, and touches nothing else in the
    builder or in the result list; the point buffer is left holding the
    last polygon. Quantizing such a polygon again with [D2I] gives the
    region back, when the coordinates of the region are below [2^31] and
    the quantizer maps the point of a lattice point back to it. *)
Theorem AssignGeometry_one_polygon_per_region
    (d : DoDifference.t) (fb : FeatureBuilder.t) :
  let polygon_of := map (fun p : PointT =>
                           PointUToPointD (to_uint32 (fst p), to_uint32 (snd p))
                                          kPointCoordBits) in
  let d' := fst (DoDifference.AssignGeometry d fb) in
  let fb' := snd (DoDifference.AssignGeometry d fb) in
  fb' = FeatureBuilder.MkFeature _
          (FeatureBuilder.m_polygons fb ++ map polygon_of (DoDifference.m_res d))
          (FeatureBuilder.m_osmIds fb) (FeatureBuilder.m_coastCell fb)
          (FeatureBuilder.m_isArea fb) (FeatureBuilder.m_types fb) /\
  DoDifference.m_res d' = DoDifference.m_res d /\
  DoDifference.m_src d' = DoDifference.m_src d /\
  DoDifference.m_points d'
  = match last (DoDifference.m_res d) with
    | Some r => polygon_of r
    | None => DoDifference.m_points d
    end /\
  (forall r : RegionT, length (polygon_of r) = length r) /\
  (forall r : RegionT,
     (forall p, p ∈ r ->
        0 <= fst p < 2 ^ 31 /\ 0 <= snd p < 2 ^ 31 /\
        PointDToPointU (PointUToPointD p kPointCoordBits) kPointCoordBits = p) ->
     map D2I (polygon_of r) = r).
Proof.
  intros polygon_of d' fb'. unfold d', fb', DoDifference.AssignGeometry.
  rewrite AssignGeometry_regions, AssignGeometry_accumulator. simpl.
  split; [done|]. split; [done|]. split; [done|]. split; [done|].
  split; [intros r; apply length_map|].
  intros r Hr. unfold polygon_of. rewrite map_map.
  induction r as [|p r IH]; [done|].
  cbn [map]. rewrite IH by (intros q Hq; apply Hr; by right). f_equal.
  destruct (Hr p ltac:(by left)) as (Hx & Hy & Hround).
  unfold D2I, to_uint32, to_int32.
  rewrite !(Z.mod_small (fst p)), !(Z.mod_small (snd p)) by lia.
  replace (fst p, snd p) with p by (by destruct p).
  rewrite Hround. rewrite !Z.mod_small by lia.
  destruct p as [x y]. simpl. f_equal; lia.
Qed.

End Geometry.

Section SplitterEdges.
Import RegionInCellSplitter Measure.
Context `{Collaborators} `{m2.Intersection} {S : Type}.
Variable f : TCell -> DoDifference.t -> S -> S.
Variable index : TIndex.

(** X6. Without threads [Process] does nothing at all: no step is
    possible, the callback is never called, and the result is [false]
    because every seed cell is still in the list. [GetFeatures] does not
    get that far: its check on the number of threads fails. *)
Theorem Process_without_threads (baseScale : Z) (out : S) (schedule : list nat) :
  0 <= baseScale ->
  Process f index schedule 0 baseScale out
  = match schedule with
    | [] => Some (false, out)
    | _ :: _ => None
    end /\
  forall (g : CoastlineFeaturesGenerator) (features : list FeatureBuilder.t),
    GetFeatures g 0 schedule features = None.
Proof.
  intros Hscale. split; [|done].
  unfold Process. destruct schedule as [|i schedule].
  - cbn [run foldl mbind option_bind Process_start joined threads replicate
         forallb m_ctx listTasks output].
    assert (0 < RectId.TotalCellsOnLevel baseScale) as Hcells
      by (unfold RectId.TotalCellsOnLevel; by apply Z.pow_pos_nonneg).
    rewrite seqZ_cons by done. done.
  - by rewrite run_cons.
Qed.

(** X7. With at least one thread [Process] never returns [false]: whenever
    a schedule lets every thread leave its loop, the list of tasks is
    empty, for every start level, index and callback. *)
Theorem Process_never_returns_false (numThreads : nat) (baseScale : Z) (out out' : S)
    (schedule : list nat) (b : bool) :
  (0 < numThreads)%nat ->
  Z.of_nat numThreads < 2 ^ 64 ->
  Process f index schedule numThreads baseScale out = Some (b, out') ->
  b = true.
Proof.
  intros Hpos Hlt. unfold Process. intros HP.
  destruct (run f index schedule _) as [st|] eqn:Hrun; [|done]. simpl in HP.
  destruct (joined st) eqn:Hjoined; [|done].
  destruct (run_consistent f index schedule
              (Process_start numThreads baseScale out) st) as [[_ Hexit] Hl];
    [unfold Process_start; cbn [threads]; by rewrite length_replicate
    |apply Process_start_consistent|exact Hrun|].
  unfold Process_start in Hl. cbn [threads] in Hl. rewrite length_replicate in Hl.
  destruct Hexit as [Hnil _].
  { unfold joined in Hjoined.
    destruct (threads st) as [|w ws]; [simpl in Hl; lia|].
    exists 0%nat. simpl in Hjoined |- *. by destruct w. }
  rewrite Hnil in HP. by simplify_eq.
Qed.

(** X8. In every state the threads can reach, [inWork] is the number of
    threads that hold a cell; it is at most the number of threads, so
    [++inWork] never wraps, and it is at least one whenever a thread is
    about to decrement it, so [--inWork] never wraps either. Once a thread
    has left its loop the list is empty and no thread holds a cell: no
    cell is pushed after a thread has given up waiting. *)
Theorem inWork_counts_working_threads (numThreads : nat) (baseScale : Z) (out : S)
    (schedule : list nat) (st : State) :
  Z.of_nat numThreads < 2 ^ 64 ->
  run f index schedule (Process_start numThreads baseScale out) = Some st ->
  length (threads st) = numThreads /\
  inWork (m_ctx st) = Z.of_nat (working (threads st)) /\
  0 <= inWork (m_ctx st) <= Z.of_nat numThreads /\
  (forall i c, threads st !! i = Some (Working c) -> 1 <= inWork (m_ctx st)) /\
  ((exists i, threads st !! i = Some Exited) ->
   listTasks (m_ctx st) = [] /\ inWork (m_ctx st) = 0 /\
   forall j c, threads st !! j <> Some (Working c)).
Proof.
  intros Hlt Hrun.
  destruct (run_consistent f index schedule
              (Process_start numThreads baseScale out) st) as [[Hwork Hexit] Hl];
    [unfold Process_start; cbn [threads]; by rewrite length_replicate
    |apply Process_start_consistent|exact Hrun|].
  unfold Process_start in Hl. cbn [threads] in Hl. rewrite length_replicate in Hl.
  pose proof (working_le_length (threads st)) as Hle.
  split; [done|]. split; [done|]. split; [lia|]. split.
  - intros i c Hi.
    destruct (decide (working (threads st) = 0%nat)) as [Hzero|Hne]; [|lia].
    by destruct (proj1 (working_zero (threads st)) Hzero i c).
  - intros Hex. destruct (Hexit Hex) as [Hnil Hzero].
    split; [done|]. split; [lia|]. exact (proj1 (working_zero (threads st)) Hzero).
Qed.

End SplitterEdges.

(** ** The subdivision carried out by the threads *)

Section SubdivisionFacts.
Import RegionInCellSplitter Measure Subdivision.
Context `{Collaborators} `{m2.Intersection}.
Variable index : TIndex.

Lemma not_ready_level (c : TCell) :
  not_ready index c = true -> RectId.Level c < kHighLevel.
Proof.
  unfold not_ready. rewrite difference_spec.
  intros Hc. apply andb_true_iff in Hc as [Hc _]. by apply Z.ltb_lt.
Qed.

Lemma accepted_ready (c : TCell) :
  not_ready index c = false -> accepted index c = [c].
Proof.
  intros Hc. unfold accepted.
  destruct (Z.to_nat _); simpl; by rewrite Hc.
Qed.

Lemma accepted_not_ready (c : TCell) :
  not_ready index c = true ->
  accepted index c = flat_map (accepted index) (children c).
Proof.
  intros Hc. pose proof (not_ready_level c Hc) as Hlevel.
  unfold accepted at 1.
  replace (Z.to_nat (kHighLevel - RectId.Level c))
    with (Datatypes.S (Z.to_nat (kHighLevel - (RectId.Level c + 1)))) by lia.
  cbn [accepted_below]. rewrite Hc. rewrite children_eq.
  unfold accepted, RectId.Child, RectId.Level. simpl. done.
Qed.

(** Along every interleaving of [GetFeatures], the cells whose features
    are in the output, together with what the subdivision makes of the
    cells still in the list or held by a thread, are what the subdivision
    makes of the seed cells. *)
Lemma accepted_invariant (features : list FeatureBuilder.t) (numThreads : nat)
    (baseScale : Z) (schedule : list nat)
    (st : State (S := option (list FeatureBuilder.t))) :
  run GetFeatures_lambda index schedule
      (Process_start numThreads baseScale (Some features)) = Some st ->
  forall fs, output (m_ctx st) = Some fs ->
    exists cells : list TCell,
      fs = features ++ map (cell_feature index) cells /\
      cells ++ flat_map (accepted index)
                 (working_cells (threads st) ++ listTasks (m_ctx st))
      ≡ₚ flat_map (accepted index)
           (map (fun i => RectId.FromBitsAndLevel i baseScale)
                (seqZ 0 (RectId.TotalCellsOnLevel baseScale))).
Proof.
  apply (run_invariant GetFeatures_lambda index (fun st =>
    forall fs, output (m_ctx st) = Some fs ->
      exists cells : list TCell,
        fs = features ++ map (cell_feature index) cells /\
        cells ++ flat_map (accepted index)
                   (working_cells (threads st) ++ listTasks (m_ctx st))
        ≡ₚ flat_map (accepted index)
             (map (fun i => RectId.FromBitsAndLevel i baseScale)
                  (seqZ 0 (RectId.TotalCellsOnLevel baseScale))))).
  - intros i s s' Hinv Hstep.
    destruct (thread_step_cases _ index i s s' Hstep)
      as [(c & rest & Hi & Hl & ->)|[(Hi & Hl & Hw & ->)
         |(c & d & Hi & Hd & _ & ->)]].
    + pose proof (working_cells_insert _ _ _ (Working c) Hi) as Hins.
      simpl in Hins. rewrite app_nil_r in Hins.
      cbn [m_ctx listTasks threads output]. intros fs Hfs.
      destruct (Hinv fs Hfs) as (cells & -> & Hperm).
      exists cells. split; [done|].
      rewrite <- Hperm, Hl, Hins, <- app_assoc. done.
    + pose proof (working_cells_insert _ _ _ Exited Hi) as Hins.
      simpl in Hins. rewrite !app_nil_r in Hins.
      cbn [m_ctx listTasks threads output]. intros fs Hfs.
      destruct (Hinv fs Hfs) as (cells & -> & Hperm).
      exists cells. split; [done|]. by rewrite Hins.
    + pose proof (working_cells_insert _ _ _ Waiting Hi) as Hins.
      simpl in Hins. rewrite app_nil_r in Hins.
      assert (not_ready index c
              = (RectId.Level c <? kHighLevel)
                && (kMaxPoints <=? DoDifference.GetPointsCount d)) as Hready
        by (unfold not_ready; by rewrite Hd).
      rewrite <- Hready.
      destruct (not_ready index c) eqn:Hc;
        cbn [m_ctx listTasks threads output]; intros fs Hfs.
      * destruct (Hinv fs Hfs) as (cells & -> & Hperm).
        exists cells. split; [done|].
        rewrite <- Hperm, <- Hins. rewrite !flat_map_app.
        apply Permutation_app_head. cbn [flat_map].
        rewrite app_nil_r, <- !app_assoc, <- (accepted_not_ready c Hc).
        apply Permutation_app_head, Permutation_app_comm.
      * unfold GetFeatures_lambda in Hfs.
        destruct (output (m_ctx s)) as [fs0|] eqn:Hfs0; [|done]. simpl in Hfs.
        match type of Hfs with
        | context [if ?b then _ else _] => destruct b; [|done]
        end. simplify_eq.
        destruct (Hinv fs0 eq_refl) as (cells & -> & Hperm).
        exists (cells ++ [c]). split.
        -- rewrite map_app, app_assoc. simpl. unfold cell_feature. by rewrite Hd.
        -- rewrite <- Hperm, <- Hins. rewrite !flat_map_app. cbn [flat_map].
           rewrite app_nil_r, <- !app_assoc, (accepted_ready c Hc).
           apply Permutation_app_head. simpl. apply Permutation_middle.
  - unfold Process_start. cbn [m_ctx listTasks threads output].
    intros fs Hfs. simplify_eq. exists []. split; [by rewrite app_nil_r|].
    by rewrite working_cells_replicate_waiting.
Qed.

End SubdivisionFacts.

Section SubdivisionRuns.
Import RegionInCellSplitter Measure Subdivision.
Context `{Collaborators} `{m2.Intersection}.

(** What [GetFeatures] returns, for every number of threads and every
    interleaving: the features of the cells the subdivision accepts, in
    some order, after the features the vector held. *)
Lemma GetFeatures_accepted (g : CoastlineFeaturesGenerator) (maxThreads : nat)
    (schedule : list nat) (features fs : list FeatureBuilder.t) :
  Z.of_nat maxThreads < 2 ^ 64 ->
  GetFeatures g maxThreads schedule features = Some fs ->
  exists cells : list TCell,
    fs = features ++ map (cell_feature (m_tree g)) cells /\
    cells ≡ₚ flat_map (accepted (m_tree g))
               (map (fun i => RectId.FromBitsAndLevel i kStartLevel)
                    (seqZ 0 (RectId.TotalCellsOnLevel kStartLevel))).
Proof.
  intros Hlt. unfold GetFeatures, Process. intros Hget.
  destruct (0 <? maxThreads)%nat eqn:Hpos; [|done]. apply Nat.ltb_lt in Hpos.
  destruct (run _ _ _ _) as [st|] eqn:Hrun; [|done]. simpl in Hget.
  destruct (joined st) eqn:Hjoined; [|done]. simpl in Hget.
  pose proof Hrun as Hrun'.
  destruct (accepted_invariant _ _ _ _ _ _ Hrun fs Hget) as (cells & -> & Hperm).
  assert (Z.of_nat (length (threads (Process_start (S := option (list FeatureBuilder.t))
                                      maxThreads kStartLevel (Some features))))
          < 2 ^ 64) as Hlen
    by (unfold Process_start; cbn [threads]; by rewrite length_replicate).
  destruct (run_consistent _ _ _ _ _ Hlen
              (Process_start_consistent _ _ _) Hrun') as [[_ Hexit] Hl].
  unfold Process_start in Hl. cbn [threads] in Hl. rewrite length_replicate in Hl.
  exists cells. split; [done|].
  unfold joined in Hjoined.
  rewrite (joined_working_cells _ Hjoined) in Hperm.
  destruct Hexit as [Hnil _].
  { destruct (threads st) as [|w ws]; [simpl in Hl; lia|].
    exists 0%nat. simpl in Hjoined |- *. by destruct w. }
  rewrite Hnil in Hperm. simpl in Hperm. by rewrite app_nil_r in Hperm.
Qed.

End SubdivisionRuns.

Section Tiling.
Import RegionInCellSplitter Measure Subdivision.
Context `{Collaborators} `{m2.Intersection}.

Lemma tiles_app (l1 l2 : list TCell) (a b c : Z) :
  tiles l1 a b -> tiles l2 b c -> tiles (l1 ++ l2) a c.
Proof.
  revert a. induction l1 as [|x l1 IH]; intros a; simpl.
  - by intros ->.
  - intros (Hlo & Hlt & Hrest) Hl2. split; [done|]. split; [done|]. by apply IH.
Qed.

Lemma tiles_le (l : list TCell) (a b : Z) : tiles l a b -> a <= b.
Proof.
  revert a. induction l as [|x l IH]; intros a; simpl; [lia|].
  intros (_ & Hlt & Hrest). apply IH in Hrest. lia.
Qed.

(** In a list of cells whose spans follow one another from [a] to [b],
    every position from [a] to [b] is under exactly one cell, and no other
    position is under any. *)
Lemma tiles_cover (l : list TCell) (a b k : Z) :
  tiles l a b ->
  length (filter (fun c => covers k c = true) l)
  = if (a <=? k) && (k <? b) then 1%nat else 0%nat.
Proof.
  revert a. induction l as [|x l IH]; intros a; simpl.
  - intros ->. destruct (b <=? k) eqn:E1, (k <? b) eqn:E2; try done. lia.
  - intros (Hlo & Hlt & Hrest). pose proof (tiles_le _ _ _ Hrest) as Hle.
    pose proof (IH _ Hrest) as Hcount. rewrite filter_cons.
    destruct (decide (covers k x = true)) as [Hc|Hc]; simpl; rewrite Hcount;
      unfold covers in Hc; rewrite Hlo in Hc;
      destruct (Z.leb_spec a k), (Z.ltb_spec k (span_hi x)),
               (Z.leb_spec (span_hi x) k), (Z.ltb_spec k b);
      simpl in *; try done; lia.
Qed.

(** The cells accepted below a cell tile its span. *)
Lemma tiles_accepted_below (index : TIndex) (depth : nat) (c : TCell) :
  Z.of_nat depth = kHighLevel - RectId.Level c ->
  tiles (accepted_below index depth c) (span_lo c) (span_hi c).
Proof.
  revert c. induction depth as [|depth IH]; intros c Hdepth.
  - simpl. destruct (not_ready index c) eqn:Hc.
    + apply not_ready_level in Hc. lia.
    + simpl. split; [done|]. split; [|done].
      unfold span_lo, span_hi, RectId.Level in *. rewrite <- Hdepth. simpl. lia.
  - cbn [accepted_below]. destruct (not_ready index c) eqn:Hc.
    + rewrite children_eq. cbn [flat_map]. rewrite app_nil_r.
      assert (forall i, Z.of_nat depth
                        = kHighLevel - RectId.Level (RectId.Child c i)) as Hchild
        by (intros i; unfold RectId.Child, RectId.Level in *; simpl; lia).
      assert (4 ^ (kHighLevel - RectId.m_level c)
              = 4 * 4 ^ (kHighLevel - (RectId.m_level c + 1))) as Hpow.
      { unfold RectId.Level in Hdepth. rewrite <- Z.pow_succ_r by lia. f_equal. lia. }
      assert (forall i, span_lo (RectId.Child c i)
                        = span_lo c + i * 4 ^ (kHighLevel - (RectId.m_level c + 1)))
        as Hlo by (intros i; unfold span_lo; simpl; rewrite Hpow; lia).
      assert (forall i, span_hi (RectId.Child c i)
                        = span_lo c + (i + 1) * 4 ^ (kHighLevel - (RectId.m_level c + 1)))
        as Hhi by (intros i; unfold span_hi, span_lo; simpl; rewrite Hpow; lia).
      pose proof (IH _ (Hchild 0)) as Ht0. pose proof (IH _ (Hchild 1)) as Ht1.
      pose proof (IH _ (Hchild 2)) as Ht2. pose proof (IH _ (Hchild 3)) as Ht3.
      rewrite Hlo, Hhi in Ht0, Ht1, Ht2, Ht3.
      assert (span_hi c = span_lo c + (3 + 1) * 4 ^ (kHighLevel - (RectId.m_level c + 1)))
        as -> by (unfold span_hi, span_lo; rewrite Hpow; lia).
      replace (span_lo c) with (span_lo c + 0 * 4 ^ (kHighLevel - (RectId.m_level c + 1)))
        at 1 by lia.
      eapply tiles_app; [exact Ht0|]. eapply tiles_app; [exact Ht1|].
      eapply tiles_app; [exact Ht2|]. exact Ht3.
    + simpl. split; [done|]. split; [|done].
      unfold span_lo, span_hi, RectId.Level in *. rewrite <- Hdepth.
      assert (0 < 4 ^ Z.of_nat (Datatypes.S depth)) by (apply Z.pow_pos_nonneg; lia).
      lia.
Qed.

(** The cells accepted below the seed cells tile the whole of level
    [kHighLevel]. *)
Lemma tiles_seeds (index : TIndex) (n : nat) (m : Z) :
  tiles (flat_map (accepted index)
           (map (fun i => RectId.FromBitsAndLevel i kStartLevel)
                (seqZ m (Z.of_nat n))))
        (m * 4 ^ 6) ((m + Z.of_nat n) * 4 ^ 6).
Proof.
  revert m. induction n as [|n IH]; intros m.
  - simpl. lia.
  - rewrite seqZ_cons by lia. cbn [map flat_map].
    eapply tiles_app.
    + apply (tiles_accepted_below index 6
               (RectId.FromBitsAndLevel m kStartLevel)). done.
    + replace (Z.pred (Z.of_nat (Datatypes.S n))) with (Z.of_nat n) by lia.
      replace ((m + Z.of_nat (Datatypes.S n)) * 4 ^ 6)
        with ((Z.succ m + Z.of_nat n) * 4 ^ 6) by lia.
      change (span_hi (RectId.FromBitsAndLevel m kStartLevel))
        with ((m + 1) * 4 ^ 6).
      replace (m + 1) with (Z.succ m) by lia. apply IH.
Qed.

End Tiling.

Section TilingClaims.
Import RegionInCellSplitter Measure Subdivision.
Context `{Collaborators} `{m2.Intersection}.

Lemma tiles_length (l : list TCell) (a b : Z) :
  tiles l a b -> Z.of_nat (length l) <= b - a.
Proof.
  revert a. induction l as [|x l IH]; intros a; simpl length.
  - simpl. lia.
  - intros (Hlo & Hlt & Hrest). apply IH in Hrest. lia.
Qed.

Lemma seeds_accepted_length (index : TIndex) (n : nat) (m : Z) :
  (n <= length (flat_map (accepted index)
                  (map (fun i => RectId.FromBitsAndLevel i kStartLevel)
                       (seqZ m (Z.of_nat n)))))%nat.
Proof.
  revert m. induction n as [|n IH]; intros m; [simpl; lia|].
  rewrite seqZ_cons by lia. cbn [map flat_map]. rewrite length_app.
  replace (Z.pred (Z.of_nat (Datatypes.S n))) with (Z.of_nat n) by lia.
  specialize (IH (Z.succ m)).
  assert (tiles (accepted index (RectId.FromBitsAndLevel m kStartLevel))
                (m * 4 ^ 6) ((m + 1) * 4 ^ 6)) as Htiles
    by (apply (tiles_accepted_below index 6); done).
  destruct (accepted index (RectId.FromBitsAndLevel m kStartLevel)) as [|c l].
  - cbn [tiles] in Htiles. lia.
  - simpl length. lia.
Qed.

(** X9. The features [GetFeatures] produces do not depend on the number of
    threads nor on how they interleave, except for their order: two
    complete runs over the same tree append the same features, up to a
    permutation, namely the feature of every cell that the subdivision of
    the 256 seed cells accepts. *)
Theorem GetFeatures_schedule_independent (g : CoastlineFeaturesGenerator)
    (threads1 threads2 : nat) (schedule1 schedule2 : list nat)
    (features fs1 fs2 : list FeatureBuilder.t) :
  Z.of_nat threads1 < 2 ^ 64 ->
  Z.of_nat threads2 < 2 ^ 64 ->
  GetFeatures g threads1 schedule1 features = Some fs1 ->
  GetFeatures g threads2 schedule2 features = Some fs2 ->
  exists new1 new2 : list FeatureBuilder.t,
    fs1 = features ++ new1 /\
    fs2 = features ++ new2 /\
    new1 ≡ₚ new2 /\
    new1 ≡ₚ map (cell_feature (m_tree g))
               (flat_map (accepted (m_tree g))
                  (map (fun i => RectId.FromBitsAndLevel i kStartLevel)
                       (seqZ 0 (RectId.TotalCellsOnLevel kStartLevel)))).
Proof.
  intros Hlt1 Hlt2 Hget1 Hget2.
  destruct (GetFeatures_accepted _ _ _ _ _ Hlt1 Hget1) as (cells1 & -> & Hperm1).
  destruct (GetFeatures_accepted _ _ _ _ _ Hlt2 Hget2) as (cells2 & -> & Hperm2).
  eexists. eexists. split; [done|]. split; [done|]. split.
  - apply Permutation_map. by rewrite Hperm1, Hperm2.
  - by apply Permutation_map.
Qed.

(** X10. The cells whose features [GetFeatures] produces tile the planet:
    every cell of level [kHighLevel] (a path [k] from [0] to [4^10 - 1])
    lies under exactly one of them, and no path outside that range lies
    under any. There are at least 256 and at most [4^10] of them. *)
Theorem GetFeatures_cells_tile_the_planet (g : CoastlineFeaturesGenerator)
    (maxThreads : nat) (schedule : list nat)
    (features fs : list FeatureBuilder.t) :
  Z.of_nat maxThreads < 2 ^ 64 ->
  GetFeatures g maxThreads schedule features = Some fs ->
  exists cells : list TCell,
    fs = features ++ map (cell_feature (m_tree g)) cells /\
    (forall k : Z,
       length (filter (fun c => covers k c = true) cells)
       = if (0 <=? k) && (k <? 4 ^ kHighLevel) then 1%nat else 0%nat) /\
    256 <= Z.of_nat (length cells) <= 4 ^ kHighLevel.
Proof.
  intros Hlt Hget.
  destruct (GetFeatures_accepted _ _ _ _ _ Hlt Hget) as (cells & -> & Hperm).
  exists cells. split; [done|].
  pose proof (tiles_seeds (m_tree g) 256 0) as Htiles.
  change (Z.of_nat 256) with (RectId.TotalCellsOnLevel kStartLevel) in Htiles at 1.
  split.
  - intros k. rewrite Hperm. by rewrite (tiles_cover _ _ _ k Htiles).
  - rewrite (Permutation_length Hperm). split.
    + pose proof (seeds_accepted_length (m_tree g) 256 0) as Hmin.
      change (Z.of_nat 256) with (RectId.TotalCellsOnLevel kStartLevel) in Hmin.
      lia.
    + apply tiles_length in Htiles.
      change ((0 + Z.of_nat 256) * 4 ^ 6 - 0 * 4 ^ 6) with (4 ^ kHighLevel) in Htiles.
      exact Htiles.
Qed.

End TilingClaims.

(** ** The tables of the bicycle model *)

Section BicycleTables.
Import bicycle_model.

(** A loop that pushes back the elements that pass a test is a filter. *)
Lemma push_back_if {A : Type} (p : A -> bool) (l acc : list A) :
  foldl (fun res e => if p e then res ++ [e] else res) acc l
  = acc ++ filter (fun e => p e = true) l.
Proof.
  revert acc. induction l as [|e l IH]; intros acc; simpl.
  - by rewrite app_nil_r.
  - rewrite IH, filter_cons.
    destruct (decide (p e = true)) as [E|E].
    + rewrite E, <- app_assoc. done.
    + apply not_true_is_false in E. by rewrite E.
Qed.

(** X11. [NoTrunk] returns the default options other than trunk and
    trunk_link, in their order and with their flags, and fills exactly the
    capacity it reserves. [UkraineOptions] has the same highway types in
    the same order; it allows no pass-through on living streets and
    service roads and pass-through everywhere else. *)
Theorem NoTrunk_and_UkraineOptions :
  (forall e, e ∈ NoTrunk <->
             e ∈ kDefaultOptions /\
             m_type e <> HighwayTrunk /\ m_type e <> HighwayTrunkLink) /\
  sublist NoTrunk kDefaultOptions /\
  Z.of_nat (length NoTrunk) = NoTrunk_reserve /\
  map m_type UkraineOptions = map m_type NoTrunk /\
  (forall e, e ∈ UkraineOptions ->
             (m_isPassThroughAllowed e = false <->
              m_type e = HighwayLivingStreet \/ m_type e = HighwayService)).
Proof.
  assert (NoTrunk
          = filter (fun e => negb (bool_decide (m_type e = HighwayTrunk))
                             && negb (bool_decide (m_type e = HighwayTrunkLink))
                             = true) kDefaultOptions) as HNoTrunk
    by (unfold NoTrunk; by rewrite push_back_if).
  split; [|split; [|split; [|split]]].
  - intros e. rewrite HNoTrunk, list_elem_of_filter.
    rewrite andb_true_iff, !negb_true_iff, !bool_decide_eq_false. tauto.
  - rewrite HNoTrunk. apply sublist_filter.
  - reflexivity.
  - unfold UkraineOptions. rewrite map_map. apply map_ext.
    intros e. by destruct (_ || _).
  - intros e He. unfold UkraineOptions in He.
    apply list_elem_of_In, in_map_iff in He as (e0 & <- & He0).
    assert (m_isPassThroughAllowed e0 = true) as Hallowed.
    { apply list_elem_of_In in He0. rewrite HNoTrunk in He0.
      apply list_elem_of_filter in He0 as [_ He0].
      unfold kDefaultOptions in He0.
      repeat (apply elem_of_cons in He0 as [->|He0]; [done|]).
      by apply elem_of_nil in He0. }
    destruct (bool_decide (m_type e0 = HighwayLivingStreet)) eqn:E1;
      destruct (bool_decide (m_type e0 = HighwayService)) eqn:E2; simpl;
      try apply bool_decide_eq_true in E1; try apply bool_decide_eq_true in E2;
      try apply bool_decide_eq_false in E1; try apply bool_decide_eq_false in E2;
      rewrite ?Hallowed; split; try done; try tauto; intros [?|?]; done.
Qed.

(** X12. The [ASSERT_EQUAL] of the [BicycleModel] constructor holds: there
    is one default option fewer than default speeds. The default options
    are the default speeds' highway types without bridleway, in the same
    order; no highway type has two speeds, and in each of the four option
    lists every highway type occurs once and has a default speed. *)
Theorem default_options_match_default_speeds :
  ctor_assert_lhs = ctor_assert_rhs /\
  map m_type kDefaultOptions
  = filter (fun t => t <> HighwayBridleway) (map fst kDefaultSpeeds) /\
  NoDup (map fst kDefaultSpeeds) /\
  forall options,
    options ∈ [kDefaultOptions; NoTrunk; AllAllowed; UkraineOptions] ->
    NoDup (map m_type options) /\
    forall e, e ∈ options -> m_type e ∈ map fst kDefaultSpeeds.
Proof.
  split; [reflexivity|]. split; [reflexivity|].
  assert (NoDup (map fst kDefaultSpeeds)) as Hspeeds
    by (apply (bool_decide_unpack (NoDup (map fst kDefaultSpeeds)));
        vm_compute; exact I).
  split; [exact Hspeeds|].
  intros options Hin.
  assert (forall l : LimitsInitList,
            bool_decide (NoDup (map m_type l)) = true ->
            bool_decide (Forall (fun e => m_type e ∈ map fst kDefaultSpeeds) l) = true ->
            NoDup (map m_type l) /\
            forall e, e ∈ l -> m_type e ∈ map fst kDefaultSpeeds) as Hcheck.
  { intros l Hnodup Hall. apply bool_decide_eq_true in Hnodup, Hall.
    split; [done|]. intros e He. by apply (proj1 (Forall_forall _ _) Hall). }
  repeat (apply elem_of_cons in Hin as [->|Hin];
          [apply Hcheck; vm_compute; reflexivity|]).
  by apply elem_of_nil in Hin.
Qed.

End BicycleTables.

Section ChecksNeverFail.
Import RegionInCellSplitter Measure.
Context `{Collaborators} `{m2.Intersection}.

Lemma points_nonneg (rs : list RegionT) :
  0 <= foldr (fun r n => Z.of_nat (length r) + n) 0 rs.
Proof. induction rs as [|r rs IH]; simpl; lia. Qed.

(** The lambda of [GetFeatures] passes its checks on the difference of a
    cell whose points fit a [size_t]. *)
Lemma lambda_succeeds (index : TIndex) (cell : TCell) (doDiff : DoDifference.t)
    (fs : list FeatureBuilder.t) :
  difference index cell = Some doDiff ->
  foldr (fun r n => Z.of_nat (length r) + n) 0 (DoDifference.m_res doDiff) < 2 ^ 64 ->
  GetFeatures_lambda cell doDiff (Some fs) = Some (fs ++ [coast_feature cell doDiff]).
Proof.
  rewrite difference_spec. intros Hd Hfit. injection Hd as <-.
  unfold GetFeatures_lambda. cbn [mbind option_bind].
  rewrite coast_feature_polygons, coast_feature_points, GetPointsCount_exact.
  cbn [DoDifference.m_res length foldr] in Hfit |- *.
  rewrite rectR_length in Hfit |- *.
  match type of Hfit with
  | _ + ?rest < _ => assert (0 <= rest) as Hrest
  end.
  { apply points_nonneg. }
  rewrite to_size_t_small by lia.
  replace (0 <? _) with true by (symmetry; apply Z.ltb_lt; lia).
  replace (3 <=? _) with true by (symmetry; apply Z.leb_le; lia).
  done.
Qed.

(** X13. When the difference of no cell has [2^64] points or more, no
    check of [GetFeatures] ever fails: along every interleaving of at
    least one thread the output vector stays in place, every schedule that
    lets all threads finish makes [GetFeatures] return, and there is such
    a schedule. *)
Theorem GetFeatures_checks_never_fail (g : CoastlineFeaturesGenerator)
    (maxThreads : nat) (features : list FeatureBuilder.t) :
  (0 < maxThreads)%nat ->
  Z.of_nat maxThreads < 2 ^ 64 ->
  (forall cell doDiff,
     difference (m_tree g) cell = Some doDiff ->
     foldr (fun r n => Z.of_nat (length r) + n) 0 (DoDifference.m_res doDiff)
     < 2 ^ 64) ->
  (forall schedule st,
     run GetFeatures_lambda (m_tree g) schedule
         (Process_start maxThreads kStartLevel (Some features)) = Some st ->
     is_Some (output (m_ctx st)) /\
     (joined st = true ->
      is_Some (GetFeatures g maxThreads schedule features))) /\
  exists schedule fs, GetFeatures g maxThreads schedule features = Some fs.
Proof.
  intros Hpos Hlt Hfit.
  assert (forall schedule st,
            run GetFeatures_lambda (m_tree g) schedule
                (Process_start maxThreads kStartLevel (Some features)) = Some st ->
            is_Some (output (m_ctx st))) as Hsome.
  { intros schedule st.
    apply (run_invariant GetFeatures_lambda (m_tree g)
             (fun st => is_Some (output (m_ctx st)))); [|by eexists].
    intros i s s' [fs Hfs] Hstep.
    destruct (thread_step_cases _ _ i s s' Hstep)
      as [(c & rest & Hi & Hl & ->)|[(Hi & Hl & Hw & ->)
         |(c & d & Hi & Hd & _ & ->)]]; cbn [m_ctx output]; [by eexists..|].
    destruct (_ && _); cbn [output]; [by eexists|].
    rewrite Hfs, (lambda_succeeds _ _ _ _ Hd (Hfit _ _ Hd)). by eexists. }
  assert (forall schedule st,
            run GetFeatures_lambda (m_tree g) schedule
                (Process_start maxThreads kStartLevel (Some features)) = Some st ->
            joined st = true ->
            is_Some (GetFeatures g maxThreads schedule features)) as Hreturns.
  { intros schedule st Hrun Hjoined. unfold GetFeatures, Process.
    replace (0 <? maxThreads)%nat with true by (symmetry; apply Nat.ltb_lt; lia).
    rewrite Hrun. cbn [mbind option_bind]. rewrite Hjoined. simpl.
    by apply (Hsome schedule). }
  split; [intros schedule st Hrun; split; [by eapply Hsome|by eapply Hreturns]|].
  destruct (run_to_terminal GetFeatures_lambda (m_tree g)
              (Process_start maxThreads kStartLevel (Some features)))
    as (schedule & st & Hrun & Hterm).
  assert (Z.of_nat (length (threads (Process_start (S := option (list FeatureBuilder.t))
                                      maxThreads kStartLevel (Some features))))
          < 2 ^ 64) as Hlen
    by (unfold Process_start; cbn [threads]; by rewrite length_replicate).
  destruct (run_consistent _ _ _ _ _ Hlen
              (Process_start_consistent _ _ _) Hrun) as [Hc _].
  destruct (terminal_joined _ _ _ Hc Hterm) as [Hjoined _].
  destruct (Hreturns schedule st Hrun Hjoined) as [fs Hfs].
  by exists schedule, fs.
Qed.

End ChecksNeverFail.

(* ================================================================== *)
(** * The properties on the example world *)

#[local] Existing Instance Lattice.quantizer.
#[local] Existing Instance Lattice.box_intersect.
#[local] Existing Instance Lattice.no_merge.

(** C1, as stated, fails: the land mass [shore] crosses the right edge of
    the first cell, so it is intersected with the envelope; afterwards the
    result list is the envelope followed by the clipped piece. The list is
    not the one obtained by replacing its first element with the output of
    the intersection, and the envelope is still in it, in the first
    slot. *)
Lemma C1_counterexample :
  let envelope := RegionInCellSplitter.rectR Lattice.cell0 in
  let d0 := DoDifference.ctor envelope in
  m2.IsRectInside (DoDifference.m_src d0) (m2.GetRect Lattice.shore) = false /\
  exists d1 : DoDifference.t,
    DoDifference.call d0 Lattice.shore = Some d1 /\
    DoDifference.m_res d1
    = [envelope;
       [(2 ^ 26 - 100, 30); (2 ^ 26 - 100, 60); (2 ^ 26, 60); (2 ^ 26, 30)]] /\
    DoDifference.m_res d1
    <> m2.intersect envelope Lattice.shore ++ tail (DoDifference.m_res d0) /\
    head (DoDifference.m_res d1) = Some envelope /\
    envelope ∈ DoDifference.m_res d1.
Proof.
  split; [reflexivity|].
  eexists. split; [reflexivity|]. split; [reflexivity|].
  split; [discriminate|]. split; [reflexivity|]. by left.
Qed.

Lemma C1_witness :
  m2.IsRectInside (m2.GetRect (RegionInCellSplitter.rectR Lattice.cell0))
                  (m2.GetRect Lattice.shore) = false /\
  (exists d : DoDifference.t,
     foldl (fun acc r => RegionInCellSplitter.bind_doDiff r acc)
           (Some (DoDifference.ctor (RegionInCellSplitter.rectR Lattice.cell0)))
           [Lattice.island] = Some d /\
     head (DoDifference.m_res d) = Some (RegionInCellSplitter.rectR Lattice.cell0) /\
     foldl (fun acc r => RegionInCellSplitter.bind_doDiff r acc)
           (Some (DoDifference.ctor (RegionInCellSplitter.rectR Lattice.cell0)))
           ([Lattice.island] ++ [Lattice.shore])
     = Some (DoDifference.Mk (DoDifference.m_src d)
               (DoDifference.m_res d
                ++ m2.intersect (RegionInCellSplitter.rectR Lattice.cell0)
                                Lattice.shore)
               (DoDifference.m_points d))).
Proof.
  split; [reflexivity|].
  apply (C1_intersection_is_appended_envelope_stays
           Lattice.cell0 [Lattice.island] Lattice.shore).
  reflexivity.
Defined.

Lemma C7_witness :
  m2.IsRectInside (m2.GetRect (RegionInCellSplitter.rectR Lattice.cell0))
                  (m2.GetRect Lattice.island) = true /\
  exists d : DoDifference.t,
    foldl (fun acc r => RegionInCellSplitter.bind_doDiff r acc)
          (Some (DoDifference.ctor (RegionInCellSplitter.rectR Lattice.cell0)))
          [Lattice.shore] = Some d /\
    foldl (fun acc r => RegionInCellSplitter.bind_doDiff r acc)
          (Some (DoDifference.ctor (RegionInCellSplitter.rectR Lattice.cell0)))
          ([Lattice.shore] ++ [Lattice.island])
    = Some (DoDifference.Mk (DoDifference.m_src d)
              (DoDifference.m_res d ++ [Lattice.island])
              (DoDifference.m_points d)).
Proof.
  assert (m2.IsRectInside (m2.GetRect (RegionInCellSplitter.rectR Lattice.cell0))
                          (m2.GetRect Lattice.island) = true) as Hin
    by reflexivity.
  split; [exact Hin|].
  destruct (C7_inner_region_appended_unchanged
              Lattice.cell0 [Lattice.shore] Lattice.island Hin)
    as (d & Hd & Hstep & _).
  exists d. split; [exact Hd|exact Hstep].
Defined.

(** C2, as stated, fails: for the ring [(0,0), (10,0), (10,10), (0,0)] the
    region in the tree is [(10,0), (10,10), (0,0)], the polygon without its
    first point, and not [(0,0), (10,0), (10,10)], the polygon without its
    last point. *)
Lemma C2_counterexample :
  IsGeometryClosed Lattice.ring = true /\
  exists g' : CoastlineFeaturesGenerator,
    Process CoastlineFeaturesGenerator_ctor Lattice.ring = Some g' /\
    map snd (m_tree g') = [[(10, 0); (10, 10); (0, 0)]] /\
    map snd (m_tree g')
    <> map (fun polygon => map D2I (removelast polygon))
           (FeatureBuilder.m_polygons Lattice.ring).
Proof.
  split; [reflexivity|]. eexists. split; [reflexivity|].
  split; [reflexivity|]. discriminate.
Qed.

Lemma C2_witness :
  IsGeometryClosed Lattice.ring = true /\
  Process CoastlineFeaturesGenerator_ctor Lattice.ring
  = Some (MkGenerator _ []
            [(m2.MkRect 0 0 10 10, [(10, 0); (10, 10); (0, 0)])]).
Proof.
  assert (IsGeometryClosed Lattice.ring = true) as Hclosed by reflexivity.
  split; [exact Hclosed|].
  exact (proj1 (C2_closed_polygon_inserted_without_first_point
                  CoastlineFeaturesGenerator_ctor Lattice.ring Hclosed)).
Defined.

Lemma C10_witness :
  IsGeometryClosed Lattice.holey = true /\
  FeatureBuilder.m_polygons Lattice.holey
  = [[(0, 0); (10, 0); (10, 10); (0, 0)]] ++ [] :: [[(2, 2); (4, 2); (4, 4); (2, 2)]] /\
  exists g' : CoastlineFeaturesGenerator,
    Process CoastlineFeaturesGenerator_ctor Lattice.holey = Some g' /\
    map snd (m_tree g') = [[(10, 0); (10, 10); (0, 0)]; [(4, 2); (4, 4); (2, 2)]].
Proof.
  assert (IsGeometryClosed Lattice.holey = true) as Hclosed by reflexivity.
  split; [exact Hclosed|]. split; [reflexivity|].
  destruct (C10_empty_polygon_skipped CoastlineFeaturesGenerator_ctor Lattice.holey
              [[(0, 0); (10, 0); (10, 10); (0, 0)]]
              [[(2, 2); (4, 2); (4, 4); (2, 2)]] Hclosed eq_refl)
    as (_ & g' & Hprocess & _ & _ & Htree).
  exists g'. split; [exact Hprocess|]. rewrite Htree. reflexivity.
Defined.

Lemma C3_witness :
  let start := RegionInCellSplitter.Process_start 1 4 (Some []) in
  RegionInCellSplitter.threads start !! 0%nat = Some RegionInCellSplitter.Waiting /\
  head (RegionInCellSplitter.listTasks (RegionInCellSplitter.m_ctx start))
  = Some Lattice.cell0 /\
  exists popped : RegionInCellSplitter.State,
    RegionInCellSplitter.thread_step GetFeatures_lambda Lattice.land 0 start
    = Some popped /\
    RegionInCellSplitter.threads popped !! 0%nat
    = Some (RegionInCellSplitter.Working Lattice.cell0) /\
    exists (doDiff : DoDifference.t) (st' : RegionInCellSplitter.State),
      RegionInCellSplitter.difference Lattice.land Lattice.cell0 = Some doDiff /\
      RegionInCellSplitter.thread_step GetFeatures_lambda Lattice.land 0 popped
      = Some st' /\
      RegionInCellSplitter.output (RegionInCellSplitter.m_ctx st')
      = GetFeatures_lambda Lattice.cell0 doDiff (Some []).
Proof.
  intros start.
  assert (RegionInCellSplitter.threads start !! 0%nat
          = Some RegionInCellSplitter.Waiting) as Hwaiting by reflexivity.
  split; [exact Hwaiting|]. split; [reflexivity|].
  destruct (C3_subdivide_or_emit GetFeatures_lambda Lattice.land 0 Lattice.cell0)
    as [Hpop Hdone].
  destruct (Hpop start _ Hwaiting eq_refl) as (popped & Hstep & Hworking & _ & Hout).
  exists popped. split; [exact Hstep|]. split; [exact Hworking|].
  destruct (Hdone popped Hworking) as (doDiff & st' & Hd & Hstep' & _ & Hcase).
  exists doDiff, st'. split; [exact Hd|]. split; [exact Hstep'|].
  assert ((RectId.Level Lattice.cell0 <? RegionInCellSplitter.kHighLevel)
          && (RegionInCellSplitter.kMaxPoints <=? DoDifference.GetPointsCount doDiff)
          = false) as Hcond.
  { assert (RegionInCellSplitter.difference Lattice.land Lattice.cell0
            = Some (DoDifference.Mk
                      (m2.GetRect (RegionInCellSplitter.rectR Lattice.cell0))
                      [RegionInCellSplitter.rectR Lattice.cell0; Lattice.island;
                       [(2 ^ 26 - 100, 30); (2 ^ 26 - 100, 60);
                        (2 ^ 26, 60); (2 ^ 26, 30)]] [])) as Hvalue
      by reflexivity.
    rewrite Hvalue in Hd. injection Hd as <-. reflexivity. }
  rewrite Hcond in Hcase. destruct Hcase as [Houtput _].
  rewrite Houtput, Hout. reflexivity.
Defined.


Lemma C5_witness :
  exists fs : list FeatureBuilder.t,
    GetFeatures Lattice.land_generator 1 Lattice.one_thread_schedule [] = Some fs /\
    exists emitted : list (RegionInCellSplitter.TCell * DoDifference.t),
      fs = [] ++ map (fun e => coast_feature (fst e) (snd e)) emitted /\
      Forall (fun e =>
                RectId.Level (fst e) < RegionInCellSplitter.kHighLevel ->
                FeatureBuilder.GetPointsCount (coast_feature (fst e) (snd e))
                <= RegionInCellSplitter.kMaxPoints) emitted.
Proof.
  destruct (GetFeatures Lattice.land_generator 1 Lattice.one_thread_schedule [])
    as [fs|] eqn:Hget; [|vm_compute in Hget; discriminate Hget].
  exists fs. split; [reflexivity|].
  destruct (C5_point_budget Lattice.land_generator 1 Lattice.one_thread_schedule
              [] fs Hget) as (emitted & Hfs & Hall).
  exists emitted. split; [exact Hfs|].
  eapply Forall_impl; [exact Hall|].
  intros e (_ & _ & _ & _ & Hbudget & _) Hlevel. exact (proj1 (Hbudget Hlevel)).
Defined.

Lemma C6_witness :
  DoMerge (Collaborators := Lattice.no_merge) [] = [] /\
  (0 < 2)%nat /\
  Z.of_nat 2 < 2 ^ 64 /\
  Finish CoastlineFeaturesGenerator_ctor
  = Some (true, CoastlineFeaturesGenerator_ctor, []) /\
  (exists schedule fs,
     GetFeatures CoastlineFeaturesGenerator_ctor 2 schedule [] = Some fs) /\
  (forall schedule fs,
     GetFeatures CoastlineFeaturesGenerator_ctor 2 schedule [] = Some fs ->
     length fs = 256%nat).
Proof.
  assert ((0 < 2)%nat) as Hpos by lia.
  assert (Z.of_nat 2 < 2 ^ 64) as Hlt by lia.
  assert (DoMerge (Collaborators := Lattice.no_merge) [] = []) as Hmerge
    by reflexivity.
  split; [exact Hmerge|]. split; [exact Hpos|]. split; [exact Hlt|].
  destruct (C6_empty_planet 2 Hmerge Hpos Hlt)
    as (Hfinish & _ & _ & Hexists & Hall).
  split; [exact Hfinish|]. split; [exact Hexists|].
  intros schedule fs Hget. exact (proj1 (Hall schedule fs Hget)).
Defined.

Lemma C8_witness :
  exists doDiff : DoDifference.t,
    RegionInCellSplitter.difference Lattice.land Lattice.cell0 = Some doDiff /\
    foldr (fun r n => Z.of_nat (length r) + n) 0 (DoDifference.m_res doDiff) < 2 ^ 64 /\
    0 < FeatureBuilder.GetPolygonsCount (coast_feature Lattice.cell0 doDiff) /\
    3 <= FeatureBuilder.GetPointsCount (coast_feature Lattice.cell0 doDiff) /\
    GetFeatures_lambda Lattice.cell0 doDiff (Some [])
    = Some ([] ++ [coast_feature Lattice.cell0 doDiff]).
Proof.
  destruct (C8_emitted_feature_not_empty Lattice.land Lattice.cell0)
    as (doDiff & Hd & _ & _ & _ & Hpolygons & Hpoints).
  exists doDiff. split; [exact Hd|].
  assert (foldr (fun r n => Z.of_nat (length r) + n) 0 (DoDifference.m_res doDiff)
          < 2 ^ 64) as Hfit.
  { assert (RegionInCellSplitter.difference Lattice.land Lattice.cell0
            = Some (DoDifference.Mk
                      (m2.GetRect (RegionInCellSplitter.rectR Lattice.cell0))
                      [RegionInCellSplitter.rectR Lattice.cell0; Lattice.island;
                       [(2 ^ 26 - 100, 30); (2 ^ 26 - 100, 60);
                        (2 ^ 26, 60); (2 ^ 26, 30)]] [])) as Hvalue
      by reflexivity.
    rewrite Hvalue in Hd. injection Hd as <-. reflexivity. }
  split; [exact Hfit|]. split; [exact Hpolygons|].
  destruct (Hpoints Hfit) as [Hthree Hlambda].
  split; [exact Hthree|apply Hlambda].
Defined.

Lemma C9_witness :
  (0 < 2)%nat /\
  Z.of_nat 2 < 2 ^ 64 /\
  (forall schedule st,
     RegionInCellSplitter.run GetFeatures_lambda Lattice.land schedule
       (RegionInCellSplitter.Process_start 2 RegionInCellSplitter.kStartLevel (Some []))
     = Some st ->
     Z.of_nat (length schedule) <= 4194048 + Z.of_nat 2) /\
  (exists schedule out',
     RegionInCellSplitter.Process GetFeatures_lambda Lattice.land schedule 2
       RegionInCellSplitter.kStartLevel (Some []) = Some (true, out')).
Proof.
  assert ((0 < 2)%nat) as Hpos by lia.
  assert (Z.of_nat 2 < 2 ^ 64) as Hlt by lia.
  split; [exact Hpos|]. split; [exact Hlt|].
  destruct (C9_splitter_runs_to_completion GetFeatures_lambda Lattice.land 2
              (Some []) Hpos Hlt) as (_ & Hbound & Hcomplete & _).
  split; [exact Hbound|exact Hcomplete].
Defined.

(** ** The further properties on the example world *)

Lemma tree_entries_keyed_by_limit_rect_witness :
  exists g : CoastlineFeaturesGenerator,
    Process_all CoastlineFeaturesGenerator_ctor LatticeRuns.stream = Some g /\
    map snd (m_tree g)
    = [[(10, 0); (10, 10); (0, 0)]; [(10, 0); (10, 10); (0, 0)];
       [(4, 2); (4, 4); (2, 2)]] /\
    Forall (fun e => fst e = GetLimitRect (snd e)) (m_tree g).
Proof.
  destruct (tree_entries_keyed_by_limit_rect LatticeRuns.stream) as (g & Hg & Hkeyed).
  exists g. split; [exact Hg|]. split.
  - assert (Process_all CoastlineFeaturesGenerator_ctor LatticeRuns.stream
            = Some (MkGenerator _ [Lattice.open_way]
                      [(m2.MkRect 0 0 10 10, [(10, 0); (10, 10); (0, 0)]);
                       (m2.MkRect 0 0 10 10, [(10, 0); (10, 10); (0, 0)]);
                       (m2.MkRect 2 2 4 4, [(4, 2); (4, 4); (2, 2)])])) as Hvalue
      by reflexivity.
    rewrite Hvalue in Hg. injection Hg as <-. reflexivity.
  - eapply Forall_impl; [exact (Hkeyed (m_tree g) (or_introl eq_refl))|].
    intros e [He _]. exact He.
Defined.

Lemma D2I_casts_round_trip_witness :
  let pu := PointDToPointU LatticeRuns.somewhere kPointCoordBits in
  0 <= fst pu < 2 ^ 32 /\
  0 <= snd pu < 2 ^ 32 /\
  DoDifference.m_points
    (DoDifference.call_point (DoDifference.ctor Lattice.island)
                             (D2I LatticeRuns.somewhere))
  = [PointUToPointD pu kPointCoordBits] /\
  D2I LatticeRuns.somewhere = (123456, 654321).
Proof.
  intros pu.
  assert (0 <= fst pu < 2 ^ 32) as Hx by (vm_compute; split; [discriminate|reflexivity]).
  assert (0 <= snd pu < 2 ^ 32) as Hy by (vm_compute; split; [discriminate|reflexivity]).
  split; [exact Hx|]. split; [exact Hy|].
  destruct (D2I_casts_round_trip LatticeRuns.somewhere
              (DoDifference.ctor Lattice.island) Hx Hy) as (Hpoints & _).
  split; [exact Hpoints|reflexivity].
Defined.

Lemma AssignGeometry_one_polygon_per_region_witness :
  (forall p, p ∈ Lattice.island ->
     0 <= fst p < 2 ^ 31 /\ 0 <= snd p < 2 ^ 31 /\
     PointDToPointU (PointUToPointD p kPointCoordBits) kPointCoordBits = p) /\
  map D2I (map (fun p : PointT =>
                  PointUToPointD (to_uint32 (fst p), to_uint32 (snd p))
                                 kPointCoordBits) Lattice.island)
  = Lattice.island.
Proof.
  assert (forall p, p ∈ Lattice.island ->
            0 <= fst p < 2 ^ 31 /\ 0 <= snd p < 2 ^ 31 /\
            PointDToPointU (PointUToPointD p kPointCoordBits) kPointCoordBits = p)
    as Hisland.
  { intros p Hp. unfold Lattice.island in Hp.
    repeat (apply elem_of_cons in Hp as [->|Hp];
            [vm_compute; repeat split; first [discriminate|reflexivity]|]).
    by apply elem_of_nil in Hp. }
  split; [exact Hisland|].
  destruct (AssignGeometry_one_polygon_per_region
              (DoDifference.ctor Lattice.island) FeatureBuilder.empty)
    as (_ & _ & _ & _ & _ & Hround).
  exact (Hround Lattice.island Hisland).
Defined.

Lemma Process_without_threads_witness :
  0 <= 4 /\
  RegionInCellSplitter.Process GetFeatures_lambda Lattice.land [] 0 4 (Some [])
  = Some (false, Some []) /\
  RegionInCellSplitter.Process GetFeatures_lambda Lattice.land [0%nat] 0 4 (Some [])
  = None.
Proof.
  assert (0 <= 4) as Hscale by lia.
  split; [exact Hscale|]. split.
  - exact (proj1 (Process_without_threads GetFeatures_lambda Lattice.land 4
                    (Some []) [] Hscale)).
  - exact (proj1 (Process_without_threads GetFeatures_lambda Lattice.land 4
                    (Some []) [0%nat] Hscale)).
Defined.

Lemma Process_never_returns_false_witness :
  (0 < 2)%nat /\
  Z.of_nat 2 < 2 ^ 64 /\
  exists (b : bool) (out' : option (list FeatureBuilder.t)),
    RegionInCellSplitter.Process GetFeatures_lambda Lattice.land
      LatticeRuns.two_thread_schedule 2 4 (Some []) = Some (b, out') /\
    b = true.
Proof.
  assert ((0 < 2)%nat) as Hpos by lia.
  assert (Z.of_nat 2 < 2 ^ 64) as Hlt by lia.
  split; [exact Hpos|]. split; [exact Hlt|].
  destruct (RegionInCellSplitter.Process GetFeatures_lambda Lattice.land
              LatticeRuns.two_thread_schedule 2 4 (Some []))
    as [[b out']|] eqn:HP; [|vm_compute in HP; discriminate HP].
  exists b, out'. split; [reflexivity|].
  exact (Process_never_returns_false GetFeatures_lambda Lattice.land 2 4
           (Some []) out' LatticeRuns.two_thread_schedule b Hpos Hlt HP).
Defined.

Lemma inWork_counts_working_threads_witness :
  Z.of_nat 2 < 2 ^ 64 /\
  exists st : RegionInCellSplitter.State,
    RegionInCellSplitter.run GetFeatures_lambda Lattice.land
      LatticeRuns.short_schedule
      (RegionInCellSplitter.Process_start 2 4 (Some [])) = Some st /\
    RegionInCellSplitter.inWork (RegionInCellSplitter.m_ctx st)
    = Z.of_nat (Measure.working (RegionInCellSplitter.threads st)) /\
    0 <= RegionInCellSplitter.inWork (RegionInCellSplitter.m_ctx st) <= Z.of_nat 2.
Proof.
  assert (Z.of_nat 2 < 2 ^ 64) as Hlt by lia.
  split; [exact Hlt|].
  destruct (RegionInCellSplitter.run GetFeatures_lambda Lattice.land
              LatticeRuns.short_schedule
              (RegionInCellSplitter.Process_start 2 4 (Some [])))
    as [st|] eqn:Hrun; [|vm_compute in Hrun; discriminate Hrun].
  exists st. split; [reflexivity|].
  destruct (inWork_counts_working_threads GetFeatures_lambda Lattice.land 2 4
              (Some []) LatticeRuns.short_schedule st Hlt Hrun)
    as (_ & Hwork & Hrange & _).
  split; [exact Hwork|exact Hrange].
Defined.

Lemma GetFeatures_schedule_independent_witness :
  Z.of_nat 1 < 2 ^ 64 /\
  Z.of_nat 2 < 2 ^ 64 /\
  exists fs1 fs2 : list FeatureBuilder.t,
    GetFeatures Lattice.land_generator 1 Lattice.one_thread_schedule [] = Some fs1 /\
    GetFeatures Lattice.land_generator 2 LatticeRuns.two_thread_schedule [] = Some fs2 /\
    fs1 ≡ₚ fs2.
Proof.
  assert (Z.of_nat 1 < 2 ^ 64) as Hlt1 by lia.
  assert (Z.of_nat 2 < 2 ^ 64) as Hlt2 by lia.
  split; [exact Hlt1|]. split; [exact Hlt2|].
  destruct (GetFeatures Lattice.land_generator 1 Lattice.one_thread_schedule [])
    as [fs1|] eqn:Hget1; [|vm_compute in Hget1; discriminate Hget1].
  destruct (GetFeatures Lattice.land_generator 2 LatticeRuns.two_thread_schedule [])
    as [fs2|] eqn:Hget2; [|vm_compute in Hget2; discriminate Hget2].
  exists fs1, fs2. split; [reflexivity|]. split; [reflexivity|].
  destruct (GetFeatures_schedule_independent Lattice.land_generator 1 2
              Lattice.one_thread_schedule LatticeRuns.two_thread_schedule
              [] fs1 fs2 Hlt1 Hlt2 Hget1 Hget2)
    as (new1 & new2 & -> & -> & Hperm & _).
  exact Hperm.
Defined.

Lemma GetFeatures_cells_tile_the_planet_witness :
  Z.of_nat 2 < 2 ^ 64 /\
  exists fs : list FeatureBuilder.t,
    GetFeatures Lattice.land_generator 2 LatticeRuns.two_thread_schedule [] = Some fs /\
    exists cells : list RegionInCellSplitter.TCell,
      fs = [] ++ map (Subdivision.cell_feature Lattice.land) cells /\
      length (filter (fun c => Subdivision.covers 777 c = true) cells) = 1%nat.
Proof.
  assert (Z.of_nat 2 < 2 ^ 64) as Hlt by lia.
  split; [exact Hlt|].
  destruct (GetFeatures Lattice.land_generator 2 LatticeRuns.two_thread_schedule [])
    as [fs|] eqn:Hget; [|vm_compute in Hget; discriminate Hget].
  exists fs. split; [reflexivity|].
  destruct (GetFeatures_cells_tile_the_planet Lattice.land_generator 2
              LatticeRuns.two_thread_schedule [] fs Hlt Hget)
    as (cells & Hfs & Hcover & _).
  exists cells. split; [exact Hfs|]. exact (Hcover 777).
Defined.

Lemma NoTrunk_and_UkraineOptions_witness :
  bicycle_model.MkLimits bicycle_model.HighwayService false
    ∈ bicycle_model.UkraineOptions /\
  (bicycle_model.m_isPassThroughAllowed
     (bicycle_model.MkLimits bicycle_model.HighwayService false) = false <->
   bicycle_model.m_type (bicycle_model.MkLimits bicycle_model.HighwayService false)
   = bicycle_model.HighwayLivingStreet \/
   bicycle_model.m_type (bicycle_model.MkLimits bicycle_model.HighwayService false)
   = bicycle_model.HighwayService).
Proof.
  assert (bicycle_model.MkLimits bicycle_model.HighwayService false
            ∈ bicycle_model.UkraineOptions) as Hin
    by (apply list_elem_of_In; vm_compute; do 6 right; left; reflexivity).
  split; [exact Hin|].
  destruct NoTrunk_and_UkraineOptions as (_ & _ & _ & _ & Hukraine).
  exact (Hukraine _ Hin).
Defined.

Lemma default_options_match_default_speeds_witness :
  bicycle_model.AllAllowed
    ∈ [bicycle_model.kDefaultOptions; bicycle_model.NoTrunk;
       bicycle_model.AllAllowed; bicycle_model.UkraineOptions] /\
  NoDup (map bicycle_model.m_type bicycle_model.AllAllowed).
Proof.
  assert (bicycle_model.AllAllowed
            ∈ [bicycle_model.kDefaultOptions; bicycle_model.NoTrunk;
               bicycle_model.AllAllowed; bicycle_model.UkraineOptions]) as Hin
    by (right; right; left).
  split; [exact Hin|].
  destruct default_options_match_default_speeds as (_ & _ & _ & Hlists).
  exact (proj1 (Hlists _ Hin)).
Defined.

Lemma GetFeatures_checks_never_fail_witness :
  (0 < 2)%nat /\
  Z.of_nat 2 < 2 ^ 64 /\
  (forall cell doDiff,
     RegionInCellSplitter.difference (m_tree CoastlineFeaturesGenerator_ctor) cell
     = Some doDiff ->
     foldr (fun r n => Z.of_nat (length r) + n) 0 (DoDifference.m_res doDiff)
     < 2 ^ 64) /\
  exists schedule fs,
    GetFeatures CoastlineFeaturesGenerator_ctor 2 schedule [] = Some fs.
Proof.
  assert ((0 < 2)%nat) as Hpos by lia.
  assert (Z.of_nat 2 < 2 ^ 64) as Hlt by lia.
  assert (forall cell doDiff,
            RegionInCellSplitter.difference (m_tree CoastlineFeaturesGenerator_ctor) cell
            = Some doDiff ->
            foldr (fun r n => Z.of_nat (length r) + n) 0 (DoDifference.m_res doDiff)
            < 2 ^ 64) as Hfit.
  { intros cell doDiff Hd. simpl in Hd. rewrite difference_empty in Hd.
    injection Hd as <-. simpl. rewrite rectR_length. lia. }
  split; [exact Hpos|]. split; [exact Hlt|]. split; [exact Hfit|].
  exact (proj2 (GetFeatures_checks_never_fail CoastlineFeaturesGenerator_ctor 2 []
                  Hpos Hlt Hfit)).
Defined.
